(** * smartsuman: PDF-to-Word conversion pipeline and Gemini key rotation

    A shallow embedding of

    - the server action [pdfToWord] with its genkit flow [pdfToWordFlow]
      (model fallback, no-OCR routing, assembly of the docx block list);
    - the Gemini key store of [src/lib/apiKeysStore.ts]: its operations
      and the selection [getRotatingGeminiKey].

    Conventions of the embedding.

    - JavaScript strings are [string]; [undefined] for an optional field
      is [None].
    - The numbers of the schema ([level], [fontSize]) are finite
      doubles; they are modelled by [Q]. Doubling is exact on doubles up
      to the overflow to infinity, which [Js.times2] models; the
      subtraction in [24 - level * 2] is exact for the integer levels
      the statements speak of.
    - The records [TextRun], [Paragraph], [Table], ... hold the options
      the source passes to the docx constructors. The constructors
      check the options of a run (its colour and its size) and throw on
      bad ones: [newTextRun] and the other [new...] functions run these
      checks in the order in which the source calls the constructors.
    - Calls that leave the module (the two genkit prompts, the no-OCR
      converter, the docx packer) are answered by a [World] and logged,
      so that "is never invoked" is a statement about the log. *)

From Stdlib Require Import String Ascii List ZArith QArith Bool Lia.
From Stdlib Require Import DecimalString DecimalZ.
Import ListNotations.

Local Open Scope string_scope.
Local Open Scope Z_scope.

(** ** JavaScript helpers *)

Module Js.

(** [s || d] on a possibly undefined string: the empty string and
    [undefined] are falsy. *)
Definition or_string (s : option string) (d : string) : string :=
  match s with
  | Some ((String _ _) as v) => v
  | _ => d
  end.

(** [n || d] on a possibly undefined number: [0] and [undefined] are
    falsy. *)
Definition or_num (n : option Q) (d : Q) : Q :=
  match n with
  | Some v => if Qeq_bool v 0 then d else v
  | None => d
  end.

(** What an arithmetic expression yields: a finite number, or an
    infinity after an overflow. *)
Inductive number :=
| Fin (q : Q)
| PosInf
| NegInf.

(** The doubles from [2 ^ 1023] on double to infinity; below, doubling a
    double is exact. *)
Definition overflowZ : Z := 2 ^ 1023.

(** [v * 2]. *)
Definition times2 (v : Q) : number :=
  if Qle_bool (inject_Z overflowZ) v then PosInf
  else if Qle_bool v (inject_Z (- overflowZ)) then NegInf
  else Fin (v * 2)%Q.

(** [24 - n]. *)
Definition from24 (n : number) : number :=
  match n with
  | Fin q => Fin (24 - q)%Q
  | PosInf => NegInf
  | NegInf => PosInf
  end.

(** The integer that a number is, if it is one. *)
Definition integerValue (q : Q) : option Z :=
  if Qnum q mod Zpos (Qden q) =? 0
  then Some (Qnum q / Zpos (Qden q))
  else None.

(** Truthiness of a possibly undefined number. *)
Definition truthy_num (n : option Q) : bool :=
  match n with
  | Some v => negb (Qeq_bool v 0)
  | None => false
  end.

(** [arr.join(sep)] on an array of strings. *)
Definition join (sep : string) (arr : list string) : string :=
  String.concat sep arr.

(** [s.substring(1)]. *)
Definition substring1 (s : string) : string :=
  match s with
  | EmptyString => EmptyString
  | String _ rest => rest
  end.

(** [String(n)] for an integer-valued number, as spliced by a template
    literal. *)
Definition string_of_int (n : Z) : string :=
  NilZero.string_of_int (Z.to_int n).

(** [arr.flat()] where every element is either a single object or an
    array of objects. *)
Inductive elem (A : Type) : Type :=
| Single (a : A)
| Arr (l : list A).
Arguments Single {A} a.
Arguments Arr {A} l.

Definition spread {A} (e : elem A) : list A :=
  match e with
  | Single a => [a]
  | Arr l => l
  end.

Definition flat {A} (l : list (elem A)) : list A :=
  flat_map spread l.

End Js.

(** ** Data model: the zod schemas of the flow output *)

Record ContentItem := mkContentItem {
  ci_text : string;
  ci_bold : option bool;
  ci_italic : option bool;
  ci_color : option string;
  ci_fontSize : option Q
}.

Record Position := mkPosition {
  pos_x : option Q;
  pos_y : option Q;
  pos_page : option Q
}.

(** The discriminant [type] is kept as the string it is in the source:
    the assembler switches on it with a [default] arm. *)
Record StructuralNode := mkStructuralNode {
  sn_type : string;
  sn_level : option Q;
  sn_items : option (list string);
  sn_rows : option (list (list string));
  sn_imageDescription : option string;
  sn_alignment : option string;
  sn_position : option Position
}.

Record ExtractionResult := mkExtractionResult {
  content : list ContentItem;
  structure : list StructuralNode
}.

(** The members of the zod enum for [type]. *)
Definition structure_types : list string :=
  ["heading"; "paragraph"; "list"; "table"; "image"; "section_break";
   "page_break"].

(** ** The docx objects the assembler builds *)

Record TextRun := mkTextRun {
  tr_text : string;
  tr_bold : option bool;
  tr_italics : option bool;
  tr_color : option string;
  tr_size : option Js.number
}.

Record Paragraph := mkParagraph {
  p_heading : option string;
  p_children : list TextRun
}.

Record TableCell := mkTableCell { tc_children : list Paragraph }.
Record TableRow := mkTableRow { trow_children : list TableCell }.
Record Table := mkTable { t_rows : list TableRow }.

Inductive Block :=
| BParagraph (p : Paragraph)
| BTable (t : Table).

Record DocSection := mkDocSection { sec_children : list Block }.
Record Document := mkDocument { doc_sections : list DocSection }.

(** A run that carries nothing but its text. *)
Definition plainRun (t : string) : TextRun :=
  mkTextRun t None None None None.

(** The [HeadingLevel] table exported by the docx package. *)
Definition HeadingLevel : list (string * string) :=
  [ ("HEADING_1", "Heading1"); ("HEADING_2", "Heading2");
    ("HEADING_3", "Heading3"); ("HEADING_4", "Heading4");
    ("HEADING_5", "Heading5"); ("HEADING_6", "Heading6");
    ("TITLE", "Title") ].

(** [HeadingLevel[key]]: [undefined] for a key that is not in the table. *)
Fixpoint lookup (key : string) (table : list (string * string))
  : option string :=
  match table with
  | [] => None
  | (k, v) :: rest => if String.eqb k key then Some v else lookup key rest
  end.

(** *** The checks of the docx constructors

    A run constructor checks the colour and the size it is given and
    throws when one of them is bad; text and flags are not checked, and
    the constructors of paragraphs, cells, rows and tables add no check
    of their own on what the source passes. *)

Module Docx.

Definition isHexDigit (c : ascii) : bool :=
  let n := nat_of_ascii c in
  ((48 <=? n) && (n <=? 57)
   || (65 <=? n) && (n <=? 70)
   || (97 <=? n) && (n <=? 102))%nat.

Fixpoint allHex (s : string) : bool :=
  match s with
  | EmptyString => true
  | String c rest => isHexDigit c && allHex rest
  end.

Definition sixHexDigits (s : string) : bool :=
  (String.length s =? 6)%nat && allHex s.

(** A leading [#] is dropped before the digits are checked. *)
Definition withoutHash (s : string) : string :=
  match s with
  | String "#" rest => rest
  | _ => s
  end.

(** The colour option: an empty one is skipped like an absent one;
    otherwise it must be [auto] or six hex digits. *)
Definition colorAccepted (color : option string) : bool :=
  match color with
  | None | Some EmptyString => true
  | Some c => String.eqb c "auto" || sixHexDigits (withoutHash c)
  end.

(** The size option: a negative size is refused. *)
Definition sizeAccepted (size : option Js.number) : bool :=
  match size with
  | None => true
  | Some (Js.Fin q) => Qle_bool 0 q
  | Some Js.PosInf => true
  | Some Js.NegInf => false
  end.

Definition runAccepted (r : TextRun) : bool :=
  colorAccepted (tr_color r) && sizeAccepted (tr_size r).

End Docx.

(** ** Assembly (the body of [pdfToWord] after a successful extraction)

    The functions of this part build the options; the constructors are
    run on them by [assemble] further down. *)

(** The callback of [result.content.map]: the options it passes to
    [new Paragraph] and [new TextRun]. The constructors are run on them
    by [newParagraph]. *)
Definition contentParagraph (item : ContentItem) : Paragraph :=
  mkParagraph None
    [ mkTextRun (ci_text item)
        (ci_bold item)
        (ci_italic item)
        (option_map Js.substring1 (ci_color item))
        (Some (if Js.truthy_num (ci_fontSize item)
               then match ci_fontSize item with
                    | Some v => Js.times2 v
                    | None => Js.Fin 22
                    end
               else Js.Fin 22)) ].

Definition paragraphs (result : ExtractionResult) : list Paragraph :=
  map contentParagraph (content result).

(** [struct.level || 1]. *)
Definition levelOrDefault (struct : StructuralNode) : Q :=
  Js.or_num (sn_level struct) 1.

(** [HeadingLevel[`HEADING_${level}`]]. An integer is spliced in as its
    decimal digits; the rendering of any other number has a [.] or an
    exponent and is the key of no entry. *)
Definition headingStyle (level : Q) : option string :=
  match Js.integerValue level with
  | Some n => lookup ("HEADING_" ++ Js.string_of_int n) HeadingLevel
  | None => None
  end.

(** [24 - level * 2]. *)
Definition headingSize (level : Q) : Js.number :=
  Js.from24 (Js.times2 level).

(** [struct.items?.join(' ') || '']. *)
Definition itemsText (struct : StructuralNode) : string :=
  Js.or_string (option_map (Js.join " ") (sn_items struct)) "".

(** The bytes of the bullet literal of the source, followed by a space. *)
Definition bulletPrefix : string :=
  String (ascii_of_nat 195) (String (ascii_of_nat 162)
  (String (ascii_of_nat 226) (String (ascii_of_nat 130)
  (String (ascii_of_nat 172) (String (ascii_of_nat 194)
  (String (ascii_of_nat 162) " ")))))).

Definition newline : string := String (ascii_of_nat 10) EmptyString.
Definition formFeed : string := String (ascii_of_nat 12) EmptyString.

Definition tableCell (cell : string) : TableCell :=
  mkTableCell [ mkParagraph None [ plainRun cell ] ].

Definition tableRow (row : list string) : TableRow :=
  mkTableRow (map tableCell row).

(** The callback of [result.structure.map]: the [switch] on
    [struct.type], each arm with the options it passes to the
    constructors. The constructors are run on them by
    [newStructBlock]. *)
Definition structBlock (struct : StructuralNode) : Js.elem Block :=
  let ty := sn_type struct in
  if String.eqb ty "heading" then
    Js.Single (BParagraph (mkParagraph
      (headingStyle (levelOrDefault struct))
      [ mkTextRun (itemsText struct) (Some true) None None
          (Some (headingSize (levelOrDefault struct))) ]))
  else if String.eqb ty "list" then
    Js.Single (BParagraph (mkParagraph None
      match sn_items struct with
      | Some items =>
          map (fun item => plainRun (bulletPrefix ++ item ++ newline)) items
      | None => []
      end))
  else if String.eqb ty "table" then
    match sn_rows struct with
    | Some ((_ :: _) as rows) => Js.Single (BTable (mkTable (map tableRow rows)))
    | _ => Js.Arr []
    end
  else if String.eqb ty "image" then
    Js.Single (BParagraph (mkParagraph None
      [ mkTextRun
          ("[Image: "
             ++ Js.or_string (sn_imageDescription struct) "Visual content"
             ++ "]")
          None (Some true) (Some "0000FF") None ]))
  else if String.eqb ty "page_break" then
    Js.Single (BParagraph (mkParagraph None [ plainRun formFeed ]))
  else
    Js.Single (BParagraph (mkParagraph None [ plainRun (itemsText struct) ])).

(** [result.structure?.map(...).flat() || []]; [structure] is an array in
    every result that passed the output schema. *)
Definition structuredContent (result : ExtractionResult) : list Block :=
  Js.flat (map structBlock (structure result)).

(** [[...structuredContent, ...paragraphs]]. *)
Definition docChildren (result : ExtractionResult) : list Block :=
  structuredContent result ++ map BParagraph (paragraphs result).

Definition assembleDocument (result : ExtractionResult) : Document :=
  mkDocument [ mkDocSection (docChildren result) ].

(** ** Effects: thrown values, outcomes and the call log *)

(** A thrown value is either an [Error] object with its [message], or
    some other value (no [message] property) with its [String(...)]
    rendering. *)
Inductive thrown :=
| ErrorObj (message : string)
| OtherValue (rendering : string).

Inductive outcome (A : Type) : Type :=
| Returned (a : A)
| Threw (e : thrown).
Arguments Returned {A} a.
Arguments Threw {A} e.

(** [err instanceof Error ? err.message : String(err)]. *)
Definition describe (err : thrown) : string :=
  match err with
  | ErrorObj m => m
  | OtherValue r => r
  end.

(** [e?.message]. *)
Definition messageOf (e : thrown) : option string :=
  match e with
  | ErrorObj m => Some m
  | OtherValue _ => None
  end.

(** Modelled from the spec: the types [PdfToWordInput] and
    [PdfToWordOutput] of [@/lib/types], which the source imports; the
    spec gives the input a source URI and a [conversionMode] and the
    output a document URI. *)
Record PdfToWordInput := mkInput {
  pdfUri : string;
  conversionMode : string
}.

Record PdfToWordOutput := mkOutput { docxUri : string }.

(** The calls that leave the module. *)
Inductive call :=
| Call_pdfToWordPrompt (uri : string)
| Call_pdfToWordPrompt15 (uri : string)
| Call_pdfToWordNoOcr (input : PdfToWordInput)
| Call_Packer_toBuffer (doc : Document).

(** What the outside answers. A prompt resolves to its [output], which
    may be null, or rejects. [docxError] is the error that the run
    constructor of docx throws for options it refuses. *)
Record World := mkWorld {
  pdfToWordPrompt : string -> outcome (option ExtractionResult);
  pdfToWordPrompt15 : string -> outcome (option ExtractionResult);
  pdfToWordNoOcr : PdfToWordInput -> outcome PdfToWordOutput;
  Packer_toBuffer : Document -> outcome string;
  toBase64 : string -> string;
  docxError : TextRun -> thrown
}.

(** Computations that may throw and that log their outside calls, the
    oldest call first. *)
Definition M (A : Type) : Type := list call -> list call * outcome A.

Definition ret {A} (a : A) : M A := fun log => (log, Returned a).

Definition throw {A} (e : thrown) : M A := fun log => (log, Threw e).

Definition bind {A B} (m : M A) (k : A -> M B) : M B :=
  fun log =>
    match m log with
    | (log', Returned a) => k a log'
    | (log', Threw e) => (log', Threw e)
    end.

(** [try { m } catch (e) { handler e }]. *)
Definition tryCatch {A} (m : M A) (handler : thrown -> M A) : M A :=
  fun log =>
    match m log with
    | (log', Returned a) => (log', Returned a)
    | (log', Threw e) => handler e log'
    end.

(** An awaited outside call. *)
Definition invoke {A} (c : call) (answer : outcome A) : M A :=
  fun log => ((log ++ [c])%list, answer).

Definition run {A} (m : M A) : list call * outcome A := m [].

Declare Scope flow_scope.
Delimit Scope flow_scope with flow.
Notation "x <- m ;; k" := (bind m (fun x => k))
  (at level 61, m at next level, right associativity) : flow_scope.

(** ** The genkit flow and the server action *)

Section Pipeline.

Variable w : World.

Local Open Scope flow_scope.

Definition noOutputMessage : string :=
  "The AI failed to process the PDF content.".

Definition noOutputMessageFallback : string :=
  "The AI failed to process the PDF content (fallback).".

Definition credentialsHint : string :=
  "Verify your API key is valid and enabled, and that outbound network access to generativelanguage.googleapis.com is allowed.".

(** The message of the error thrown when both models failed. *)
Definition bothFailedMessage (m1 m2 : string) : string :=
  "Gemini request failed: " ++ m1
    ++ ". Fallback model also failed: " ++ m2 ++ ". "
    ++ credentialsHint.

(** The handler of [pdfToWordFlow]. The schema checks that genkit wraps
    around a prompt are part of the prompt's answer. *)
Definition pdfToWordFlow (uri : string) : M ExtractionResult :=
  tryCatch
    (output <- invoke (Call_pdfToWordPrompt uri) (pdfToWordPrompt w uri) ;;
     match output with
     | None => throw (ErrorObj noOutputMessage)
     | Some o => ret o
     end)
    (fun err =>
       tryCatch
         (output <- invoke (Call_pdfToWordPrompt15 uri)
                      (pdfToWordPrompt15 w uri) ;;
          match output with
          | None => throw (ErrorObj noOutputMessageFallback)
          | Some o => ret o
          end)
         (fun err2 =>
            let m1 := describe err in
            let m2 := describe err2 in
            throw (ErrorObj (bothFailedMessage m1 m2)))).

(** [new TextRun(options)]. *)
Definition newTextRun (options : TextRun) : outcome TextRun :=
  if Docx.runAccepted options then Returned options
  else Threw (docxError w options).

(** [arr.map(f)] with a callback that may throw: the first throw ends
    the loop. *)
Fixpoint mapThrowing {A B} (f : A -> outcome B) (arr : list A)
  : outcome (list B) :=
  match arr with
  | [] => Returned []
  | x :: rest =>
      match f x with
      | Threw e => Threw e
      | Returned y =>
          match mapThrowing f rest with
          | Threw e => Threw e
          | Returned ys => Returned (y :: ys)
          end
      end
  end.

(** [new Paragraph(options)]: the runs are built first. *)
Definition newParagraph (options : Paragraph) : outcome Paragraph :=
  match mapThrowing newTextRun (p_children options) with
  | Threw e => Threw e
  | Returned runs => Returned (mkParagraph (p_heading options) runs)
  end.

Definition newTableCell (options : TableCell) : outcome TableCell :=
  match mapThrowing newParagraph (tc_children options) with
  | Threw e => Threw e
  | Returned ps => Returned (mkTableCell ps)
  end.

Definition newTableRow (options : TableRow) : outcome TableRow :=
  match mapThrowing newTableCell (trow_children options) with
  | Threw e => Threw e
  | Returned cells => Returned (mkTableRow cells)
  end.

Definition newTable (options : Table) : outcome Table :=
  match mapThrowing newTableRow (t_rows options) with
  | Threw e => Threw e
  | Returned rows => Returned (mkTable rows)
  end.

Definition newBlock (options : Block) : outcome Block :=
  match options with
  | BParagraph p =>
      match newParagraph p with
      | Threw e => Threw e
      | Returned p' => Returned (BParagraph p')
      end
  | BTable t =>
      match newTable t with
      | Threw e => Threw e
      | Returned t' => Returned (BTable t')
      end
  end.

(** What one call of the callback of [result.structure.map] yields. An
    empty array is returned without any constructor call. *)
Definition newStructBlock (struct : StructuralNode)
  : outcome (Js.elem Block) :=
  match structBlock struct with
  | Js.Single b =>
      match newBlock b with
      | Threw e => Threw e
      | Returned b' => Returned (Js.Single b')
      end
  | Js.Arr l => Returned (Js.Arr l)
  end.

(** The statements of [pdfToWord] between the extraction and the packer:
    first [paragraphs] is built from the content items, then
    [structuredContent] from the structural nodes, then the children of
    the document are put together. *)
Definition assemble (result : ExtractionResult) : outcome (list Block) :=
  match mapThrowing newParagraph (paragraphs result) with
  | Threw e => Threw e
  | Returned ps =>
      match mapThrowing newStructBlock (structure result) with
      | Threw e => Threw e
      | Returned elems => Returned (Js.flat elems ++ map BParagraph ps)%list
      end
  end.

Definition noFallbackMessage : string :=
  "AI conversion failed and fallback converter was not available.".

Definition docxUriPrefix : string :=
  "data:application/vnd.openxmlformats-officedocument.wordprocessingml.document;base64,".

(** [pdfToWord]. The [try] statement either leaves [result] assigned
    ([inl]) or returns from the function with the fallback's output
    ([inr]). The assembly and the packer come after the [try]: what
    they throw leaves the function. *)
Definition pdfToWord (input : PdfToWordInput) : M PdfToWordOutput :=
  if String.eqb (conversionMode input) "no_ocr" then
    invoke (Call_pdfToWordNoOcr input) (pdfToWordNoOcr w input)
  else
    step <- tryCatch
              (result <- pdfToWordFlow (pdfUri input) ;; ret (inl result))
              (fun e =>
                 tryCatch
                   (fallback <- invoke (Call_pdfToWordNoOcr input)
                                  (pdfToWordNoOcr w input) ;;
                    ret (inr fallback))
                   (fun e2 =>
                      throw (ErrorObj
                               (Js.or_string (messageOf e)
                                  noFallbackMessage)))) ;;
    match step with
    | inr fallback => ret fallback
    | inl result =>
        match assemble result with
        | Threw e => throw e
        | Returned children =>
            let doc := mkDocument [ mkDocSection children ] in
            docxBuffer <- invoke (Call_Packer_toBuffer doc)
                            (Packer_toBuffer w doc) ;;
            ret (mkOutput (docxUriPrefix ++ toBase64 w docxBuffer))
        end
    end.

End Pipeline.

(** Which calls reach the extraction orchestrator (a model prompt). *)
Definition isModelCall (c : call) : bool :=
  match c with
  | Call_pdfToWordPrompt _ | Call_pdfToWordPrompt15 _ => true
  | _ => false
  end.

(** [s] contains [part] as a contiguous piece. *)
Definition contains (s part : string) : Prop :=
  exists pre post, s = pre ++ part ++ post.

(** ** The API key store ([src/lib/apiKeysStore.ts]) *)

Module ApiKeysStore.

Inductive Provider := gemini.

Record ApiKeyRecord := mkApiKeyRecord {
  id : string;
  provider : Provider;
  key : string;
  label : option string;
  createdAt : string;
  enabled : bool;
  flagged : option bool
}.

Inductive Strategy := hourly | minute.

Record RotationConfig := mkRotationConfig {
  rotationEnabled : bool;
  strategy : Strategy
}.

(** [providers] and [rotation] have the single provider ['gemini']. *)
Record ApiKeysStoreShape := mkStore {
  providers_gemini : list ApiKeyRecord;
  rotation_gemini : RotationConfig
}.

(** [k.enabled && !k.flagged]; an absent [flagged] is falsy. *)
Definition eligible (k : ApiKeyRecord) : bool :=
  enabled k && negb (match flagged k with Some b => b | None => false end).

(** [arr[i]] for an integer-valued index: [undefined] out of range. *)
Definition index {A} (arr : list A) (i : Z) : option A :=
  if i <? 0 then None else nth_error arr (Z.to_nat i).

(** Reading [.key] of [undefined]. *)
Definition undefinedKeyError : thrown :=
  ErrorObj "Cannot read properties of undefined (reading 'key')".

(** [getRotatingGeminiKey] for a valid date, on the store that
    [readStore] returned and on [date.getTime()], the milliseconds since
    the epoch. [%] is the remainder that takes the sign of the
    dividend. *)
Definition getRotatingGeminiKey (store : ApiKeysStoreShape) (time : Z)
  : outcome (option string) :=
  let keys := filter eligible (providers_gemini store) in
  if (length keys =? 0)%nat then Returned None
  else if negb (rotationEnabled (rotation_gemini store)) then
    match index keys 0 with
    | Some k => Returned (Some (key k))
    | None => Threw undefinedKeyError
    end
  else
    let baseIndex :=
      match strategy (rotation_gemini store) with
      | minute => time / 60000
      | hourly => time / 3600000
      end in
    let idx := Z.rem baseIndex (Z.of_nat (length keys)) in
    match index keys idx with
    | Some k => Returned (Some (key k))
    | None => Threw undefinedKeyError
    end.

(** A [Date]: a time in milliseconds since the epoch, or an invalid
    date, whose [getTime()] is [NaN]. *)
Inductive Date :=
| ValidDate (time : Z)
| InvalidDate.

(** [getRotatingGeminiKey] on any date. With [NaN] for the time, both
    the base index and the index are [NaN], and [keys[NaN]] is
    [undefined]. *)
Definition getRotatingGeminiKeyAt (store : ApiKeysStoreShape) (date : Date)
  : outcome (option string) :=
  match date with
  | ValidDate time => getRotatingGeminiKey store time
  | InvalidDate =>
      let keys := filter eligible (providers_gemini store) in
      if (length keys =? 0)%nat then Returned None
      else if negb (rotationEnabled (rotation_gemini store)) then
        match index keys 0 with
        | Some k => Returned (Some (key k))
        | None => Threw undefinedKeyError
        end
      else Threw undefinedKeyError
  end.

(** The length of a rotation bucket in milliseconds. *)
Definition interval (s : Strategy) : Z :=
  match s with
  | hourly => 3600000
  | minute => 60000
  end.

End ApiKeysStore.

(** ** Definitions used to state the properties *)


(** The same extraction with other [alignment] and [position] metadata
    on every structural node. *)
Definition withMetadata
    (meta : StructuralNode -> option string * option Position)
    (result : ExtractionResult) : ExtractionResult :=
  mkExtractionResult (content result)
    (map (fun s =>
            mkStructuralNode (sn_type s) (sn_level s) (sn_items s)
              (sn_rows s) (sn_imageDescription s)
              (fst (meta s)) (snd (meta s)))
         (structure result)).

(** The blocks one structural node contributes to the document. *)
Definition blocksOf (struct : StructuralNode) : list Block :=
  Js.spread (structBlock struct).

Definition headingNode (level : option Q) (items : list string)
  : StructuralNode :=
  mkStructuralNode "heading" level (Some items) None None None None.

Definition tableNode (rows : option (list (list string)))
  : StructuralNode :=
  mkStructuralNode "table" None None rows None None None.

Definition redItem : ContentItem :=
  mkContentItem "Hi" (Some true) None (Some "#FF0000") (Some 12%Q).

Definition sampleResult : ExtractionResult :=
  mkExtractionResult
    [ redItem; mkContentItem "there" None None None None ]
    [ headingNode (Some 3%Q) ["A"; "title"];
      tableNode (Some []);
      tableNode (Some [["a"; "b"]; ["c"]]);
      mkStructuralNode "section_break" None None None None None
        (Some (mkPosition (Some 1%Q) (Some 2%Q) (Some 1%Q))) ].

(** Why a model attempt failed, if it did: the description of what the
    prompt threw, or the message of the error raised for a missing
    [output]. *)
Definition attemptFailure (noOutput : string)
    (answer : outcome (option ExtractionResult)) : option string :=
  match answer with
  | Threw e => Some (describe e)
  | Returned None => Some noOutput
  | Returned (Some _) => None
  end.

Definition primaryFailure (w : World) (uri : string) : option string :=
  attemptFailure noOutputMessage (pdfToWordPrompt w uri).

Definition secondaryFailure (w : World) (uri : string) : option string :=
  attemptFailure noOutputMessageFallback (pdfToWordPrompt15 w uri).

(** Sample worlds. *)
Definition badRunError : thrown := ErrorObj "Invalid run options".
Definition quotaError : thrown := ErrorObj "429 quota exceeded".
Definition officeError : thrown := ErrorObj "soffice not found".

Definition sampleOutput : PdfToWordOutput := mkOutput "data:converted".

Definition mkSampleWorld
    (primary secondary : outcome (option ExtractionResult))
    (noOcr : outcome PdfToWordOutput) : World :=
  mkWorld (fun _ => primary) (fun _ => secondary) (fun _ => noOcr)
    (fun _ => Returned "PK") (fun _ => "UEs=") (fun _ => badRunError).

Definition ocrInput : PdfToWordInput := mkInput "data:pdf" "ocr".
Definition noOcrInput : PdfToWordInput := mkInput "data:pdf" "no_ocr".

(** The eligible keys of a store, in stored order: the local [keys] of
    [getRotatingGeminiKey]. *)
Definition eligibleKeys (store : ApiKeysStore.ApiKeysStoreShape)
  : list ApiKeysStore.ApiKeyRecord :=
  filter ApiKeysStore.eligible (ApiKeysStore.providers_gemini store).

Definition sampleKey (k : string) (en : bool) (fl : option bool)
  : ApiKeysStore.ApiKeyRecord :=
  ApiKeysStore.mkApiKeyRecord ("key_" ++ k) ApiKeysStore.gemini k None
    "2024-01-01T00:00:00.000Z" en fl.

Definition sampleStore (rot : bool) (s : ApiKeysStore.Strategy)
  : ApiKeysStore.ApiKeysStoreShape :=
  ApiKeysStore.mkStore
    [ sampleKey "A" true None; sampleKey "B" false None;
      sampleKey "C" true (Some true); sampleKey "D" true (Some false) ]
    (ApiKeysStore.mkRotationConfig rot s).

(** ** The other operations of the key store

    Every operation starts with [readStore()] and, unless it returns
    early, ends with [writeStore(store)]. It is modelled on the store
    that was read and yields the store it leaves (the one handed to
    [writeStore], or the one read when nothing is written) together with
    its return value. The random part of a new id and the creation time
    are inputs. *)

Module StoreOps.

Import ApiKeysStore.

(** The record after the assignment [k.enabled = b]. *)
Definition withEnabled (b : bool) (k : ApiKeyRecord) : ApiKeyRecord :=
  mkApiKeyRecord (id k) (provider k) (key k) (label k) (createdAt k) b
    (flagged k).

(** The record after the assignment [k.flagged = f]. *)
Definition withFlagged (f : bool) (k : ApiKeyRecord) : ApiKeyRecord :=
  mkApiKeyRecord (id k) (provider k) (key k) (label k) (createdAt k)
    (enabled k) (Some f).

(** The array after a field of [arr.find(p)] was assigned: the first
    element that satisfies [p] is updated in place. *)
Fixpoint updateFirst {A} (p : A -> bool) (f : A -> A) (arr : list A)
  : list A :=
  match arr with
  | [] => []
  | x :: rest => if p x then f x :: rest else x :: updateFirst p f rest
  end.

(** [arr.findIndex(p)]: [-1] when no element satisfies [p]. *)
Fixpoint findIndex {A} (p : A -> bool) (arr : list A) : Z :=
  match arr with
  | [] => -1
  | x :: rest =>
      if p x then 0
      else let i := findIndex p rest in
           if i =? -1 then -1 else i + 1
  end.

(** The array after fields of [arr[i]] were assigned. *)
Fixpoint updateAt {A} (i : nat) (f : A -> A) (arr : list A) : list A :=
  match arr, i with
  | [], _ => []
  | x :: rest, O => f x :: rest
  | x :: rest, S j => x :: updateAt j f rest
  end.

Definition hasId (wanted : string) (k : ApiKeyRecord) : bool :=
  String.eqb (id k) wanted.

Definition hasKey (wanted : string) (k : ApiKeyRecord) : bool :=
  String.eqb (key k) wanted.

Definition getGeminiKeys (store : ApiKeysStoreShape) : list ApiKeyRecord :=
  providers_gemini store.

(** [generateId], given the eight base-36 digits drawn at random. *)
Definition generateId (random : string) : string := "key_" ++ random.

Definition addGeminiKey (store : ApiKeysStoreShape)
    (random now : string) (keyValue : string) (newLabel : option string)
  : ApiKeysStoreShape * ApiKeyRecord :=
  let record :=
    mkApiKeyRecord (generateId random) gemini keyValue newLabel now true
      None in
  (mkStore (providers_gemini store ++ [record])%list (rotation_gemini store),
   record).

Definition deleteGeminiKey (store : ApiKeysStoreShape) (wanted : string)
  : ApiKeysStoreShape * bool :=
  let before := length (providers_gemini store) in
  let kept := filter (fun k => negb (hasId wanted k)) (providers_gemini store) in
  (mkStore kept (rotation_gemini store), (length kept <? before)%nat).

Definition setGeminiKeyEnabled (store : ApiKeysStoreShape)
    (wanted : string) (b : bool)
  : ApiKeysStoreShape * option ApiKeyRecord :=
  match find (hasId wanted) (providers_gemini store) with
  | None => (store, None)
  | Some found =>
      (mkStore (updateFirst (hasId wanted) (withEnabled b)
                  (providers_gemini store))
         (rotation_gemini store),
       Some (withEnabled b found))
  end.

Definition getGeminiRotation (store : ApiKeysStoreShape) : RotationConfig :=
  rotation_gemini store.

Definition setGeminiRotationEnabled (store : ApiKeysStoreShape) (b : bool)
  : ApiKeysStoreShape * RotationConfig :=
  let rotation := mkRotationConfig b (strategy (rotation_gemini store)) in
  (mkStore (providers_gemini store) rotation, rotation).

Definition setGeminiRotationStrategy (store : ApiKeysStoreShape)
    (s : Strategy) : ApiKeysStoreShape * RotationConfig :=
  let rotation := mkRotationConfig (rotationEnabled (rotation_gemini store)) s in
  (mkStore (providers_gemini store) rotation, rotation).

(** [key.slice(0, n)]. *)
Definition sliceFront (n : nat) (s : string) : string := substring 0 n s.

(** [key.slice(-n)]. *)
Definition sliceBack (n : nat) (s : string) : string :=
  substring (String.length s - n) n s.

Definition maskKey (keyValue : string) : string :=
  match keyValue with
  | EmptyString => ""
  | String _ _ =>
      if (String.length keyValue <=? 8)%nat
      then sliceFront 4 keyValue ++ "****"
      else sliceFront 6 keyValue ++ "..." ++ sliceBack 4 keyValue
  end.

(** [rec || null]: a record is an object, hence truthy. *)
Definition findGeminiRecordByKey (store : ApiKeysStoreShape)
    (keyValue : string) : option ApiKeyRecord :=
  find (hasKey keyValue) (providers_gemini store).

Definition disableGeminiKeyByValue (store : ApiKeysStoreShape)
    (keyValue : string) : ApiKeysStoreShape * option ApiKeyRecord :=
  let idx := findIndex (hasKey keyValue) (providers_gemini store) in
  if idx =? -1 then (store, None)
  else
    let records :=
      updateAt (Z.to_nat idx)
        (fun k => withFlagged true (withEnabled false k))
        (providers_gemini store) in
    (mkStore records (rotation_gemini store), index records idx).

Definition setGeminiKeyFlagged (store : ApiKeysStoreShape)
    (wanted : string) (f : bool)
  : ApiKeysStoreShape * option ApiKeyRecord :=
  match find (hasId wanted) (providers_gemini store) with
  | None => (store, None)
  | Some found =>
      (mkStore (updateFirst (hasId wanted) (withFlagged f)
                  (providers_gemini store))
         (rotation_gemini store),
       Some (withFlagged f found))
  end.

End StoreOps.

(** A table node that contributes no block: [rows] absent or empty. *)
Definition isEmptyTable (struct : StructuralNode) : bool :=
  String.eqb (sn_type struct) "table"
  && match sn_rows struct with
     | Some (_ :: _) => false
     | _ => true
     end.

(** The runs of a block, in the order in which they are built. *)
Definition blockRuns (b : Block) : list TextRun :=
  match b with
  | BParagraph p => p_children p
  | BTable t =>
      flat_map
        (fun row =>
           flat_map (fun cell => flat_map p_children (tc_children cell))
             (trow_children row))
        (t_rows t)
  end.

(** All runs of an extraction in the order in which [pdfToWord] builds
    them: those of the content items, then those of the structural
    nodes. *)
Definition assemblyRuns (result : ExtractionResult) : list TextRun :=
  (flat_map p_children (paragraphs result)
   ++ flat_map blockRuns (structuredContent result))%list.

(** The first run that the run constructor refuses. *)
Definition firstRefusedRun (runs : list TextRun) : option TextRun :=
  find (fun r => negb (Docx.runAccepted r)) runs.

(** The run of a heading node. *)
Definition headingRun (struct : StructuralNode) : TextRun :=
  mkTextRun (itemsText struct) (Some true) None None
    (Some (headingSize (levelOrDefault struct))).

(** A content item whose colour has no leading [#], and an extraction
    that holds just this item. *)
Definition hashlessItem : ContentItem :=
  mkContentItem "Hi" None None (Some "FF0000") None.

Definition hashlessResult : ExtractionResult :=
  mkExtractionResult [hashlessItem] [].

(** An extraction that holds just a heading of level 13. *)
Definition deepHeadingResult : ExtractionResult :=
  mkExtractionResult [] [ headingNode (Some 13%Q) ["A"] ].

(** Six hex digits written after a [#]. *)
Definition hashColour (color : option string) (digits : string) : Prop :=
  color = Some (String "#" digits) /\ Docx.sixHexDigits digits = true.

(** What the action returns once the packer answered. *)
Definition packed (w : World) (result : ExtractionResult)
  : outcome PdfToWordOutput :=
  match Packer_toBuffer w (assembleDocument result) with
  | Returned buf => Returned (mkOutput (docxUriPrefix ++ toBase64 w buf))
  | Threw e => Threw e
  end.

(** ** Assembly: helper lemmas *)



(** Numbers. *)


Lemma integerValue_is (l : Q) (n : Z) :
  Js.integerValue l = Some n -> l == inject_Z n.
Proof.
  unfold Qeq, Js.integerValue. simpl.
  destruct (Z.eqb_spec (Qnum l mod Zpos (Qden l)) 0) as [Hm | _];
    [|discriminate].
  intros [= <-].
  pose proof (Z.div_mod (Qnum l) (Zpos (Qden l)) ltac:(lia)). lia.
Qed.

Lemma overflowZ_large : 9007199254740992 < Js.overflowZ.
Proof. reflexivity. Qed.



(** The constructors: they hand back the options unless a run is
    refused, and then throw for the first refused run. *)

Section Constructors.

Variable w : World.

Lemma mapThrowing_first {A} (f : A -> outcome A) (runsOf : A -> list TextRun)
    (arr : list A) :
  (forall x, In x arr ->
     f x = match firstRefusedRun (runsOf x) with
           | None => Returned x
           | Some r => Threw (docxError w r)
           end) ->
  mapThrowing f arr
  = match firstRefusedRun (flat_map runsOf arr) with
    | None => Returned arr
    | Some r => Threw (docxError w r)
    end.
Proof.
  unfold firstRefusedRun.
  induction arr as [|x arr IH]; intros Hf; simpl; [reflexivity|].
  rewrite (Hf x (or_introl eq_refl)).
  rewrite IH by (intros y Hy; apply Hf; right; exact Hy).
  unfold firstRefusedRun.
  set (p := fun r => negb (Docx.runAccepted r)).
  assert (Happ : forall l1 l2,
            find p (l1 ++ l2)
            = match find p l1 with Some r => Some r | None => find p l2 end).
  { induction l1 as [|y l1 IHl]; intros l2; simpl; [reflexivity|].
    destruct (p y); [reflexivity | apply IHl]. }
  rewrite Happ.
  destruct (find p (runsOf x)); [reflexivity|].
  destruct (find p (flat_map runsOf arr)); reflexivity.
Qed.

Lemma newTextRun_first (r : TextRun) :
  newTextRun w r
  = match firstRefusedRun [r] with
    | None => Returned r
    | Some r' => Threw (docxError w r')
    end.
Proof.
  unfold newTextRun, firstRefusedRun. simpl.
  destruct (Docx.runAccepted r); reflexivity.
Qed.

Lemma flat_map_singleton {A} (l : list A) :
  flat_map (fun x => [x]) l = l.
Proof. induction l as [|x l IH]; simpl; [reflexivity | now rewrite IH]. Qed.

Lemma newParagraph_first (p : Paragraph) :
  newParagraph w p
  = match firstRefusedRun (p_children p) with
    | None => Returned p
    | Some r => Threw (docxError w r)
    end.
Proof.
  unfold newParagraph.
  rewrite (mapThrowing_first (newTextRun w) (fun r => [r]))
    by (intros r _; apply newTextRun_first).
  rewrite flat_map_singleton.
  destruct (firstRefusedRun (p_children p)); [reflexivity|].
  destruct p; reflexivity.
Qed.

Lemma newTableCell_first (c : TableCell) :
  newTableCell w c
  = match firstRefusedRun (flat_map p_children (tc_children c)) with
    | None => Returned c
    | Some r => Threw (docxError w r)
    end.
Proof.
  unfold newTableCell.
  rewrite (mapThrowing_first (newParagraph w) p_children)
    by (intros p _; apply newParagraph_first).
  destruct (firstRefusedRun _); [reflexivity|].
  destruct c; reflexivity.
Qed.

Lemma newTableRow_first (row : TableRow) :
  newTableRow w row
  = match firstRefusedRun
            (flat_map (fun c => flat_map p_children (tc_children c))
               (trow_children row)) with
    | None => Returned row
    | Some r => Threw (docxError w r)
    end.
Proof.
  unfold newTableRow.
  rewrite (mapThrowing_first (newTableCell w)
             (fun c => flat_map p_children (tc_children c)))
    by (intros c _; apply newTableCell_first).
  destruct (firstRefusedRun _); [reflexivity|].
  destruct row; reflexivity.
Qed.

Lemma newBlock_first (b : Block) :
  newBlock w b
  = match firstRefusedRun (blockRuns b) with
    | None => Returned b
    | Some r => Threw (docxError w r)
    end.
Proof.
  destruct b as [p | t]; unfold newBlock, blockRuns.
  - rewrite newParagraph_first.
    destruct (firstRefusedRun (p_children p)); reflexivity.
  - unfold newTable.
    rewrite (mapThrowing_first (newTableRow w)
               (fun row =>
                  flat_map (fun c => flat_map p_children (tc_children c))
                    (trow_children row)))
      by (intros row _; apply newTableRow_first).
    destruct (firstRefusedRun _); [reflexivity|].
    destruct t; reflexivity.
Qed.

Lemma newStructBlock_first (struct : StructuralNode) :
  newStructBlock w struct
  = match firstRefusedRun (flat_map blockRuns (blocksOf struct)) with
    | None => Returned (structBlock struct)
    | Some r => Threw (docxError w r)
    end.
Proof.
  unfold newStructBlock, blocksOf.
  destruct (structBlock struct) as [b | l] eqn:E; simpl.
  - rewrite app_nil_r, newBlock_first.
    destruct (firstRefusedRun (blockRuns b)); reflexivity.
  - assert (Hl : l = []).
    { unfold structBlock in E.
      repeat match type of E with
             | (if ?c then _ else _) = _ => destruct c
             end; try discriminate.
      destruct (sn_rows struct) as [[|row rows]|]; try discriminate;
        injection E as <-; reflexivity. }
    subst l. reflexivity.
Qed.

(** The whole assembly: it yields the children of the document unless a
    run is refused, and then throws for the first refused run in the
    order of construction. *)
Lemma assemble_first (result : ExtractionResult) :
  assemble w result
  = match firstRefusedRun (assemblyRuns result) with
    | None => Returned (docChildren result)
    | Some r => Threw (docxError w r)
    end.
Proof.
  unfold assemble, assemblyRuns.
  rewrite (mapThrowing_first (newParagraph w) p_children)
    by (intros p _; apply newParagraph_first).
  assert (Happ : forall l1 l2,
            firstRefusedRun (l1 ++ l2)
            = match firstRefusedRun l1 with
              | Some r => Some r
              | None => firstRefusedRun l2
              end).
  { unfold firstRefusedRun.
    induction l1 as [|y l1 IHl]; intros l2; simpl; [reflexivity|].
    destruct (negb (Docx.runAccepted y)); [reflexivity | apply IHl]. }
  rewrite Happ.
  destruct (firstRefusedRun (flat_map p_children (paragraphs result)));
    [reflexivity|].
  assert (Hstruct :
    mapThrowing (newStructBlock w) (structure result)
    = match firstRefusedRun
              (flat_map blockRuns (structuredContent result)) with
      | None => Returned (map structBlock (structure result))
      | Some r => Threw (docxError w r)
      end).
  { unfold structuredContent, Js.flat.
    induction (structure result) as [|s l IH]; simpl; [reflexivity|].
    rewrite newStructBlock_first. unfold blocksOf.
    rewrite flat_map_app, Happ.
    destruct (firstRefusedRun (flat_map blockRuns (Js.spread (structBlock s))));
      [reflexivity|].
    rewrite IH.
    destruct (firstRefusedRun _); reflexivity. }
  rewrite Hstruct.
  destruct (firstRefusedRun (flat_map blockRuns (structuredContent result)));
    reflexivity.
Qed.

Lemma assemble_returned (result : ExtractionResult) (blocks : list Block) :
  assemble w result = Returned blocks -> blocks = docChildren result.
Proof.
  rewrite assemble_first.
  destruct (firstRefusedRun (assemblyRuns result)); [discriminate|].
  intros [= <-]. reflexivity.
Qed.

End Constructors.

Lemma structBlock_metadata (s : StructuralNode) al pos :
  structBlock
    (mkStructuralNode (sn_type s) (sn_level s) (sn_items s) (sn_rows s)
       (sn_imageDescription s) al pos)
  = structBlock s.
Proof. reflexivity. Qed.

Lemma structuredContent_flat_map (result : ExtractionResult) :
  structuredContent result = flat_map blocksOf (structure result).
Proof.
  unfold structuredContent, Js.flat, blocksOf.
  induction (structure result) as [|s rest IH]; simpl.
  - reflexivity.
  - rewrite IH. reflexivity.
Qed.

(** ** C2: the heading level *)

Lemma to_int_not_nil (z : Z) :
  Z.to_int z <> Decimal.Pos Decimal.Nil
  /\ Z.to_int z <> Decimal.Neg Decimal.Nil.
Proof.
  split; intros H; pose proof (f_equal Z.of_int H) as Hz;
    rewrite DecimalZ.of_to in Hz; simpl in Hz; subst z; discriminate.
Qed.

(** Two integers with the same decimal rendering are equal. *)
Lemma string_of_int_inj (a b : Z) :
  Js.string_of_int a = Js.string_of_int b -> a = b.
Proof.
  unfold Js.string_of_int. intros H.
  apply (f_equal NilZero.int_of_string) in H.
  destruct (to_int_not_nil a) as [Ha1 Ha2].
  destruct (to_int_not_nil b) as [Hb1 Hb2].
  rewrite !NilZero.isi in H by assumption.
  injection H as H. apply DecimalZ.to_int_inj, H.
Qed.

Lemma headingStyle_in_range (l : Z) :
  1 <= l <= 6 ->
  lookup ("HEADING_" ++ Js.string_of_int l) HeadingLevel
  = Some ("Heading" ++ Js.string_of_int l).
Proof.
  intros H.
  assert (Hl : l = 1 \/ l = 2 \/ l = 3 \/ l = 4 \/ l = 5 \/ l = 6) by lia.
  repeat (destruct Hl as [Hl | Hl]; [subst l; reflexivity|]).
  subst l; reflexivity.
Qed.

Lemma lookup_In (key : string) (table : list (string * string)) v :
  lookup key table = Some v -> In (key, v) table.
Proof.
  induction table as [|[k v'] rest IH]; simpl; [discriminate|].
  destruct (String.eqb_spec k key) as [-> | _].
  - intros [= ->]. left. reflexivity.
  - intros H. right. apply IH, H.
Qed.

(** A decimal digit 1..6 that renders [l] forces [l] into [1,6]. *)
Ltac level_clash Hs l :=
  first [ apply (string_of_int_inj 1 l) in Hs
        | apply (string_of_int_inj 2 l) in Hs
        | apply (string_of_int_inj 3 l) in Hs
        | apply (string_of_int_inj 4 l) in Hs
        | apply (string_of_int_inj 5 l) in Hs
        | apply (string_of_int_inj 6 l) in Hs ];
  lia.

Lemma headingStyle_out_of_range (l : Z) :
  ~ (1 <= l <= 6) ->
  lookup ("HEADING_" ++ Js.string_of_int l) HeadingLevel = None.
Proof.
  intros H.
  destruct (lookup _ HeadingLevel) as [v|] eqn:E; [exfalso | reflexivity].
  apply lookup_In in E. simpl in E.
  repeat (destruct E as [E | E];
          [ first [ discriminate E
                  | injection E; intros _ Hs; level_clash Hs l ] |]).
  contradiction.
Qed.











(** ** C5: tables *)




(** ** C6: the default arm *)



(** Among the types of the schema, the default arm is reached by
    [paragraph] and [section_break] and by no other. *)
Lemma schema_types_in_default_arm (ty : string) :
  In ty structure_types ->
  (~ In ty ["heading"; "list"; "table"; "image"; "page_break"]
   <-> ty = "paragraph" \/ ty = "section_break").
Proof.
  unfold structure_types. simpl.
  intros [<- | [<- | [<- | [<- | [<- | [<- | [<- | []]]]]]]];
    split; intros H;
    try (exfalso; apply H; tauto);
    try tauto;
    try (destruct H as [H | H]; discriminate H);
    intros [H' | [H' | [H' | [H' | [H' | []]]]]]; discriminate H'.
Qed.

(** ** C9: the run of a content item *)

Lemma withoutHash_hex (c : ascii) (rest : string) :
  Docx.isHexDigit c = true ->
  Docx.withoutHash (String c rest) = String c rest.
Proof.
  destruct c as [[] [] [] [] [] [] [] []]; intros H;
    solve [reflexivity | discriminate H].
Qed.

Lemma colorAccepted_digits (digits : string) :
  Docx.sixHexDigits digits = true ->
  Docx.colorAccepted (Some digits) = true.
Proof.
  intros H. destruct digits as [|c rest]; [reflexivity|].
  unfold Docx.colorAccepted.
  assert (Hc : Docx.isHexDigit c = true).
  { unfold Docx.sixHexDigits in H. apply andb_true_iff in H.
    destruct H as [_ H]. cbn [Docx.allHex] in H.
    apply andb_true_iff in H. apply H. }
  rewrite (withoutHash_hex c rest Hc), H. apply orb_true_r.
Qed.

Lemma contentSize_positive (v : Q) :
  (0 < v)%Q ->
  Js.truthy_num (Some v) = true
  /\ Docx.sizeAccepted (Some (Js.times2 v)) = true
  /\ ((v < inject_Z Js.overflowZ)%Q -> Js.times2 v = Js.Fin (v * 2)%Q)
  /\ ((inject_Z Js.overflowZ <= v)%Q -> Js.times2 v = Js.PosInf).
Proof.
  intros Hpos.
  assert (Hlow : Qle_bool v (inject_Z (- Js.overflowZ)) = false).
  { destruct (Qle_bool v (inject_Z (- Js.overflowZ))) eqn:E;
      [|reflexivity].
    apply Qle_bool_iff in E. exfalso.
    assert (H0 : (inject_Z 0 < inject_Z (- Js.overflowZ))%Q)
      by (exact (Qlt_le_trans _ _ _ Hpos E)).
    rewrite <- Zlt_Qlt in H0. pose proof overflowZ_large. lia. }
  split; [|split; [|split]].
  - unfold Js.truthy_num. destruct (Qeq_bool v 0) eqn:E; [|reflexivity].
    apply Qeq_bool_eq in E. rewrite E in Hpos.
    exfalso. exact (Qlt_irrefl 0 Hpos).
  - unfold Js.times2.
    destruct (Qle_bool (inject_Z Js.overflowZ) v); [reflexivity|].
    rewrite Hlow. cbn [Docx.sizeAccepted]. apply Qle_bool_iff.
    clear Hlow. unfold Qle, Qlt, Qmult in *. cbn [Qnum Qden] in *. lia.
  - intros Hhi. unfold Js.times2.
    destruct (Qle_bool (inject_Z Js.overflowZ) v) eqn:E.
    { apply Qle_bool_iff in E. exfalso. exact (Qlt_not_le _ _ Hhi E). }
    rewrite Hlow. reflexivity.
  - intros Hhi. unfold Js.times2.
    apply Qle_bool_iff in Hhi. rewrite Hhi. reflexivity.
Qed.

(** The run of a content item is accepted when its colour is absent or
    [#] and six hex digits and its font size is absent or not
    negative. *)
Lemma contentRun_accepted (item : ContentItem) :
  (ci_color item = None
   \/ exists digits, hashColour (ci_color item) digits) ->
  (forall v, ci_fontSize item = Some v -> (0 <= v)%Q) ->
  forall r, In r (p_children (contentParagraph item)) ->
            Docx.runAccepted r = true.
Proof.
  intros Hcol Hsize r [<- | []].
  unfold Docx.runAccepted. cbn [tr_color tr_size].
  apply andb_true_iff. split.
  - destruct Hcol as [-> | [digits [-> Hd]]]; [reflexivity|].
    apply colorAccepted_digits, Hd.
  - destruct (ci_fontSize item) as [v|] eqn:Ev; [|reflexivity].
    destruct (Qeq_bool v 0) eqn:E0.
    + unfold Js.truthy_num. rewrite E0. reflexivity.
    + assert (Hpos : (0 < v)%Q).
      { pose proof (Hsize v eq_refl) as Hv.
        apply Qle_lt_or_eq in Hv.
        destruct Hv as [Hv | Hv]; [exact Hv|].
        apply Qeq_sym, Qeq_eq_bool in Hv. congruence. }
      destruct (contentSize_positive v Hpos) as [Ht [Hacc _]].
      rewrite Ht. exact Hacc.
Qed.

(** C9, as the code has it. For a content item whose colour is absent
    or written as [#] and six hex digits, and whose font size is absent
    or positive, the paragraph is built and holds one run with the
    item's text, bold and italic flags unchanged; a present font size is
    doubled (points to half-points), which is twice its value below the
    overflow of the doubling and infinity from there on; an absent one
    gives 22 half-points, which is 11 points; the colour is carried
    without its leading [#]. *)
Theorem content_run_styling (w : World) (item : ContentItem) :
  (ci_color item = None
   \/ exists digits, hashColour (ci_color item) digits) ->
  (ci_fontSize item = None
   \/ exists v, ci_fontSize item = Some v /\ (0 < v)%Q) ->
  exists r,
    newParagraph w (contentParagraph item) = Returned (mkParagraph None [r])
    /\ tr_text r = ci_text item
    /\ tr_bold r = ci_bold item
    /\ tr_italics r = ci_italic item
    /\ (forall v, ci_fontSize item = Some v ->
          tr_size r = Some (Js.times2 v)
          /\ ((v < inject_Z Js.overflowZ)%Q ->
              tr_size r = Some (Js.Fin (v * 2)%Q))
          /\ ((inject_Z Js.overflowZ <= v)%Q ->
              tr_size r = Some Js.PosInf))
    /\ (ci_fontSize item = None ->
          tr_size r = Some (Js.Fin 22) /\ 22%Q = (11 * 2)%Q)
    /\ (forall digits, hashColour (ci_color item) digits ->
          tr_color r = Some digits)
    /\ (ci_color item = None -> tr_color r = None).
Proof.
  intros Hcol Hsize.
  assert (Hacc : firstRefusedRun (p_children (contentParagraph item))
                 = None).
  { unfold firstRefusedRun. cbn [contentParagraph p_children find].
    rewrite (contentRun_accepted item Hcol); [reflexivity| |].
    - intros v Hv. destruct Hsize as [Hn | [v' [Hv' Hpos]]];
        [congruence|]. apply Qlt_le_weak. congruence.
    - left. reflexivity. }
  assert (Hs : exists size,
            (if Js.truthy_num (ci_fontSize item)
             then match ci_fontSize item with
                  | Some v => Js.times2 v
                  | None => Js.Fin 22
                  end
             else Js.Fin 22) = size
            /\ (forall v, ci_fontSize item = Some v ->
                  size = Js.times2 v)
            /\ (ci_fontSize item = None -> size = Js.Fin 22)).
  { destruct Hsize as [-> | [v [-> Hpos]]].
    - exists (Js.Fin 22). split; [reflexivity|].
      split; [intros v; discriminate | reflexivity].
    - destruct (contentSize_positive v Hpos) as [Ht _].
      exists (Js.times2 v). rewrite Ht.
      split; [reflexivity|]. split; [|discriminate].
      intros v' [= <-]. reflexivity. }
  destruct Hs as [size [Hsz [Hsome Hnone]]].
  exists (mkTextRun (ci_text item) (ci_bold item) (ci_italic item)
            (option_map Js.substring1 (ci_color item)) (Some size)).
  split.
  { rewrite newParagraph_first, Hacc. unfold contentParagraph.
    rewrite Hsz. reflexivity. }
  cbn [tr_text tr_bold tr_italics tr_size tr_color].
  split; [reflexivity|]. split; [reflexivity|]. split; [reflexivity|].
  split; [|split; [|split]].
  - intros v Hv. rewrite (Hsome v Hv).
    assert (Hpos : (0 < v)%Q).
    { destruct Hsize as [Hn | [v' [Hv' Hpos]]]; congruence. }
    destruct (contentSize_positive v Hpos) as [_ [_ [Hfin Hinf]]].
    split; [reflexivity|]. split.
    + intros Hhi. rewrite (Hfin Hhi). reflexivity.
    + intros Hhi. rewrite (Hinf Hhi). reflexivity.
  - intros Hn. rewrite (Hnone Hn). split; reflexivity.
  - intros digits [-> _]. reflexivity.
  - intros ->. reflexivity.
Qed.

Lemma content_run_styling_witness :
  newParagraph
    (mkSampleWorld (Returned None) (Returned None) (Threw officeError))
    (contentParagraph redItem)
  = Returned (mkParagraph None
      [ mkTextRun "Hi" (Some true) None (Some "FF0000")
          (Some (Js.Fin (12 * 2)%Q)) ]).
Proof.
  destruct (content_run_styling
              (mkSampleWorld (Returned None) (Returned None)
                 (Threw officeError)) redItem)
    as [r [Hp [Ht [Hb [Hi [Hsize [_ [Hcol _]]]]]]]].
  - right. exists "FF0000". split; reflexivity.
  - right. exists 12%Q. repeat split.
  - rewrite Hp. destruct r as [t b i c s]; cbn in *.
    rewrite Ht, Hb, Hi, (proj1 (proj2 (Hsize 12%Q eq_refl)) eq_refl).
    rewrite (Hcol "FF0000" (conj eq_refl eq_refl)).
    reflexivity.
Defined.

(** C9, as stated, fails on the colour: ["#FF0000"] is not carried
    unchanged, the run is built with ["FF0000"]. *)
Lemma content_color_not_unchanged :
  p_children (contentParagraph redItem)
  = [ mkTextRun "Hi" (Some true) None (Some "FF0000") (Some (Js.Fin 24)) ]
  /\ firstRefusedRun (p_children (contentParagraph redItem)) = None
  /\ Some "FF0000" <> ci_color redItem
  /\ ~ (forall r, In r (p_children (contentParagraph redItem)) ->
          tr_color r = ci_color redItem).
Proof.
  split; [reflexivity|]. split; [reflexivity|]. split; [discriminate|].
  intros H. specialize (H _ (or_introl eq_refl)). discriminate H.
Qed.

(** ** The flow and the pipeline: helper lemmas *)

Lemma append_assoc (a b c : string) : (a ++ b) ++ c = a ++ b ++ c.
Proof. induction a as [|x a IH]; simpl; [reflexivity | now rewrite IH]. Qed.

Lemma append_nil_r (a : string) : a ++ "" = a.
Proof. induction a as [|x a IH]; simpl; [reflexivity | now rewrite IH]. Qed.

Lemma contains_middle (pre part post : string) :
  contains (pre ++ part ++ post) part.
Proof. exists pre, post. reflexivity. Qed.

Lemma bothFailedMessage_contains (m1 m2 : string) :
  contains (bothFailedMessage m1 m2) m1
  /\ contains (bothFailedMessage m1 m2) m2
  /\ contains (bothFailedMessage m1 m2) credentialsHint.
Proof.
  unfold bothFailedMessage. repeat split.
  - apply contains_middle.
  - exists ("Gemini request failed: " ++ m1 ++ ". Fallback model also failed: "),
      (". " ++ credentialsHint).
    rewrite !append_assoc. reflexivity.
  - exists ("Gemini request failed: " ++ m1
              ++ ". Fallback model also failed: " ++ m2 ++ ". "), "".
    rewrite append_nil_r, !append_assoc. reflexivity.
Qed.

Lemma bothFailedMessage_nonempty (m1 m2 : string) :
  Js.or_string (Some (bothFailedMessage m1 m2)) noFallbackMessage
  = bothFailedMessage m1 m2.
Proof. reflexivity. Qed.

(** The three ways the flow can go, on any log. *)
Lemma pdfToWordFlow_primary w uri r log :
  pdfToWordPrompt w uri = Returned (Some r) ->
  pdfToWordFlow w uri log
  = ((log ++ [Call_pdfToWordPrompt uri])%list, Returned r).
Proof.
  intros H. unfold pdfToWordFlow, tryCatch, bind, invoke. rewrite H.
  reflexivity.
Qed.

Lemma pdfToWordFlow_secondary w uri m1 r log :
  primaryFailure w uri = Some m1 ->
  pdfToWordPrompt15 w uri = Returned (Some r) ->
  pdfToWordFlow w uri log
  = ((log ++ [Call_pdfToWordPrompt uri; Call_pdfToWordPrompt15 uri])%list,
     Returned r).
Proof.
  intros H1 H2. unfold primaryFailure, attemptFailure in H1.
  unfold pdfToWordFlow, tryCatch, bind, invoke. rewrite H2.
  destruct (pdfToWordPrompt w uri) as [[o|]|e]; try discriminate;
    cbn; rewrite <- app_assoc; reflexivity.
Qed.

Lemma pdfToWordFlow_both_fail w uri m1 m2 log :
  primaryFailure w uri = Some m1 ->
  secondaryFailure w uri = Some m2 ->
  pdfToWordFlow w uri log
  = ((log ++ [Call_pdfToWordPrompt uri; Call_pdfToWordPrompt15 uri])%list,
     Threw (ErrorObj (bothFailedMessage m1 m2))).
Proof.
  intros H1 H2.
  unfold primaryFailure, secondaryFailure, attemptFailure in H1, H2.
  unfold pdfToWordFlow, tryCatch, bind, invoke.
  destruct (pdfToWordPrompt w uri) as [[o|]|e]; try discriminate;
    destruct (pdfToWordPrompt15 w uri) as [[o2|]|e2]; try discriminate;
    injection H1 as <-; injection H2 as <-;
    cbn; rewrite <- app_assoc; reflexivity.
Qed.

(** The flow always answers: it returns or it throws the combined
    error. *)
Lemma pdfToWordFlow_cases w uri :
  (exists r, pdfToWordPrompt w uri = Returned (Some r))
  \/ (exists m1 r, primaryFailure w uri = Some m1
                   /\ pdfToWordPrompt15 w uri = Returned (Some r))
  \/ (exists m1 m2, primaryFailure w uri = Some m1
                    /\ secondaryFailure w uri = Some m2).
Proof.
  unfold primaryFailure, secondaryFailure, attemptFailure.
  destruct (pdfToWordPrompt w uri) as [[o|]|e];
    destruct (pdfToWordPrompt15 w uri) as [[o2|]|e2]; eauto 8.
Qed.

(** After a successful extraction the action assembles the document and
    packs it; a refused run ends the action before the packer. *)
Lemma pdfToWord_after_extraction w input log r :
  conversionMode input <> "no_ocr" ->
  pdfToWordFlow w (pdfUri input) [] = (log, Returned r) ->
  run (pdfToWord w input)
  = match firstRefusedRun (assemblyRuns r) with
    | Some bad => (log, Threw (docxError w bad))
    | None =>
        ((log ++ [Call_Packer_toBuffer (assembleDocument r)])%list,
         packed w r)
    end.
Proof.
  intros Hmode Hflow. unfold run, pdfToWord.
  apply String.eqb_neq in Hmode. rewrite Hmode.
  unfold bind at 1. unfold tryCatch at 1. unfold bind at 1.
  rewrite Hflow. cbn [ret]. rewrite assemble_first.
  destruct (firstRefusedRun (assemblyRuns r)); [reflexivity|].
  unfold bind, invoke, ret, packed, assembleDocument.
  destruct (Packer_toBuffer w _); reflexivity.
Qed.

Lemma assemblyRuns_metadata (result : ExtractionResult) meta :
  assemblyRuns (withMetadata meta result) = assemblyRuns result
  /\ docChildren (withMetadata meta result) = docChildren result.
Proof.
  assert (Hs : structuredContent (withMetadata meta result)
               = structuredContent result).
  { unfold structuredContent, withMetadata. simpl. rewrite map_map.
    rewrite (map_ext _ structBlock)
      by (intros s; apply structBlock_metadata).
    reflexivity. }
  unfold assemblyRuns, docChildren. rewrite Hs. split; reflexivity.
Qed.

(** ** C1: when assembly returns, and what it returns *)

Lemma firstRefusedRun_none (runs : list TextRun) :
  (forall r, In r runs -> Docx.runAccepted r = true) ->
  firstRefusedRun runs = None.
Proof.
  unfold firstRefusedRun.
  induction runs as [|r runs IH]; intros H; simpl; [reflexivity|].
  rewrite (H r (or_introl eq_refl)). simpl.
  apply IH. intros r' Hr'. apply H. right. exact Hr'.
Qed.

(** Up to level 12 the size of a heading is not negative. *)
Lemma headingSize_accepted (l : Q) :
  (l <= 12)%Q -> Docx.sizeAccepted (Some (headingSize l)) = true.
Proof.
  intros Hhi. unfold headingSize, Js.times2.
  destruct (Qle_bool (inject_Z Js.overflowZ) l) eqn:E1.
  { apply Qle_bool_iff in E1. exfalso.
    assert (H : (inject_Z Js.overflowZ <= inject_Z 12)%Q)
      by (exact (Qle_trans _ _ _ E1 Hhi)).
    rewrite <- Zle_Qle in H. pose proof overflowZ_large. lia. }
  destruct (Qle_bool l (inject_Z (- Js.overflowZ))); [reflexivity|].
  cbn [Js.from24 Docx.sizeAccepted]. apply Qle_bool_iff.
  clear E1. unfold Qle, Qminus, Qplus, Qmult, Qopp in *.
  cbn [Qnum Qden] in *. lia.
Qed.

Lemma levelOrDefault_le_12 (struct : StructuralNode) :
  (forall l, sn_level struct = Some l -> (l <= 12)%Q) ->
  (levelOrDefault struct <= 12)%Q.
Proof.
  intros H. unfold levelOrDefault, Js.or_num.
  destruct (sn_level struct) as [l|]; [|discriminate].
  destruct (Qeq_bool l 0); [discriminate | apply H; reflexivity].
Qed.

(** The runs of a structural node are accepted, those of a heading when
    its level is absent or at most 12. *)
Lemma structRuns_accepted (struct : StructuralNode) :
  (sn_type struct = "heading" ->
   forall l, sn_level struct = Some l -> (l <= 12)%Q) ->
  forall b r, In b (blocksOf struct) -> In r (blockRuns b) ->
              Docx.runAccepted r = true.
Proof.
  intros Hlevel b r. unfold blocksOf, structBlock.
  destruct (String.eqb (sn_type struct) "heading") eqn:E1.
  { apply String.eqb_eq in E1. intros [<- | []] [<- | []].
    unfold Docx.runAccepted. cbn [tr_color tr_size Docx.colorAccepted].
    apply headingSize_accepted, levelOrDefault_le_12, Hlevel, E1. }
  destruct (String.eqb (sn_type struct) "list").
  { intros [<- | []]. cbn [blockRuns p_children].
    destruct (sn_items struct) as [items|]; [|intros []].
    rewrite in_map_iff. intros [item [<- _]]. reflexivity. }
  destruct (String.eqb (sn_type struct) "table").
  { destruct (sn_rows struct) as [[|row rows]|];
      [intros [] | | intros []].
    intros [<- | []]. cbn [blockRuns t_rows].
    rewrite in_flat_map. intros [tr [Htr Hr]].
    apply in_map_iff in Htr. destruct Htr as [cells [<- _]].
    unfold tableRow in Hr. cbn [trow_children] in Hr.
    rewrite in_flat_map in Hr. destruct Hr as [cell [Hc Hr]].
    apply in_map_iff in Hc. destruct Hc as [c [<- _]].
    destruct Hr as [<- | []]. reflexivity. }
  destruct (String.eqb (sn_type struct) "image").
  { intros [<- | []] [<- | []]. reflexivity. }
  destruct (String.eqb (sn_type struct) "page_break");
    intros [<- | []] [<- | []]; reflexivity.
Qed.

(** No run is refused when every heading level is absent or at most 12
    and every content item has a colour that is absent or [#] and six
    hex digits and a font size that is absent or not negative. *)
Lemma assemblyRuns_accepted (result : ExtractionResult) :
  (forall struct l,
     In struct (structure result) -> sn_type struct = "heading" ->
     sn_level struct = Some l -> (l <= 12)%Q) ->
  (forall item, In item (content result) ->
     (ci_color item = None
      \/ exists digits, hashColour (ci_color item) digits)
     /\ (forall v, ci_fontSize item = Some v -> (0 <= v)%Q)) ->
  firstRefusedRun (assemblyRuns result) = None.
Proof.
  intros Hstruct Hcontent. apply firstRefusedRun_none.
  intros r Hr. unfold assemblyRuns in Hr. apply in_app_or in Hr.
  destruct Hr as [Hr | Hr].
  - apply in_flat_map in Hr. destruct Hr as [p [Hp Hr]].
    unfold paragraphs in Hp. apply in_map_iff in Hp.
    destruct Hp as [item [<- Hitem]].
    destruct (Hcontent item Hitem) as [Hcol Hsize].
    exact (contentRun_accepted item Hcol Hsize r Hr).
  - rewrite structuredContent_flat_map in Hr.
    apply in_flat_map in Hr. destruct Hr as [b [Hb Hr]].
    apply in_flat_map in Hb. destruct Hb as [struct [Hs Hb]].
    apply (structRuns_accepted struct) with (b := b);
      [|exact Hb | exact Hr].
    intros Hty l Hl. exact (Hstruct struct l Hs Hty Hl).
Qed.

(** C1, as the code has it. Assembly builds the runs of the content
    items and then those of the structural nodes; it returns unless the
    run constructor refuses one of them, and then it throws the error
    of the first refused run. It returns whenever every heading level
    is absent or at most 12 and every content item has a colour that is
    absent or [#] and six hex digits and a font size that is absent or
    not negative. Whenever it returns, the children of the document are
    the structure-derived blocks, node after node in the order of
    [structure], followed by one paragraph per content item in the
    order of [content]; the length is the sum of both counts; replacing
    the alignment and position metadata of the nodes changes nothing;
    and the action goes on to pack the document with exactly these
    children. *)
Theorem assembled_structure_then_content
    (w : World) (result : ExtractionResult) :
  (assemble w result = Returned (docChildren result)
   \/ exists bad,
        firstRefusedRun (assemblyRuns result) = Some bad
        /\ assemble w result = Threw (docxError w bad))
  /\ ((forall struct l,
         In struct (structure result) -> sn_type struct = "heading" ->
         sn_level struct = Some l -> (l <= 12)%Q) ->
      (forall item, In item (content result) ->
         (ci_color item = None
          \/ exists digits, hashColour (ci_color item) digits)
         /\ (forall v, ci_fontSize item = Some v -> (0 <= v)%Q)) ->
      assemble w result = Returned (docChildren result))
  /\ (forall blocks,
        assemble w result = Returned blocks ->
        blocks
          = (flat_map blocksOf (structure result)
             ++ map (fun item => BParagraph (contentParagraph item))
                  (content result))%list
        /\ length blocks
           = (length (structuredContent result)
              + length (content result))%nat
        /\ (forall i b,
              nth_error (structuredContent result) i = Some b ->
              nth_error blocks i = Some b)
        /\ (forall i item,
              nth_error (content result) i = Some item ->
              nth_error blocks (length (structuredContent result) + i)
              = Some (BParagraph (contentParagraph item)))
        /\ (forall meta,
              assemble w (withMetadata meta result) = Returned blocks)
        /\ (forall input log,
              conversionMode input <> "no_ocr" ->
              pdfToWordFlow w (pdfUri input) [] = (log, Returned result) ->
              fst (run (pdfToWord w input))
              = (log ++ [ Call_Packer_toBuffer
                            (mkDocument [ mkDocSection blocks ]) ])%list)).
Proof.
  split; [|split].
  { rewrite assemble_first.
    destruct (firstRefusedRun (assemblyRuns result)) as [bad|];
      [right; exists bad; split; reflexivity | left; reflexivity]. }
  { intros Hstruct Hcontent.
    rewrite assemble_first,
      (assemblyRuns_accepted result Hstruct Hcontent).
    reflexivity. }
  intros blocks Hasm.
  assert (Hblocks := assemble_returned w result blocks Hasm). subst blocks.
  assert (Hnone : firstRefusedRun (assemblyRuns result) = None).
  { rewrite assemble_first in Hasm.
    destruct (firstRefusedRun (assemblyRuns result));
      [discriminate | reflexivity]. }
  assert (Hshape : docChildren result
    = (structuredContent result
       ++ map (fun item => BParagraph (contentParagraph item))
            (content result))%list).
  { unfold docChildren, paragraphs. rewrite map_map. reflexivity. }
  split; [|split; [|split; [|split; [|split]]]].
  - rewrite Hshape, structuredContent_flat_map. reflexivity.
  - rewrite Hshape, length_app, length_map. reflexivity.
  - intros i b Hb. rewrite Hshape.
    rewrite nth_error_app1; [exact Hb|].
    apply nth_error_Some. rewrite Hb. discriminate.
  - intros i item Hi. rewrite Hshape.
    rewrite nth_error_app2 by lia.
    replace (length (structuredContent result) + i
             - length (structuredContent result))%nat with i by lia.
    rewrite nth_error_map, Hi. reflexivity.
  - intros meta. rewrite assemble_first.
    destruct (assemblyRuns_metadata result meta) as [-> ->].
    rewrite Hnone. reflexivity.
  - intros input log Hmode Hflow.
    rewrite (pdfToWord_after_extraction w input log result Hmode Hflow).
    rewrite Hnone. reflexivity.
Qed.

Lemma assembled_structure_then_content_witness :
  assemble
    (mkSampleWorld (Returned None) (Returned None) (Threw officeError))
    sampleResult
  = Returned (docChildren sampleResult).
Proof.
  apply (proj1 (proj2
           (assembled_structure_then_content
              (mkSampleWorld (Returned None) (Returned None)
                 (Threw officeError))
              sampleResult))).
  - intros struct l [<- | [<- | [<- | [<- | []]]]] Hty;
      try discriminate Hty.
    intros [= <-]. unfold Qle. simpl. lia.
  - intros item [<- | [<- | []]].
    + split.
      * right. exists "FF0000". split; reflexivity.
      * intros v [= <-]. unfold Qle. simpl. lia.
    + split; [left; reflexivity | intros v Hv; discriminate Hv].
Defined.

(** C1, as stated, fails for a heading of level 13, a level that the
    schema lets through: the run of the heading is given the size
    [24 - 13 * 2], which is -2, the run constructor refuses it, and
    assembly throws instead of returning blocks; the action throws that
    error after the model call, before the packer. *)
Lemma assembly_throws_on_level_13 :
  In (sn_type (headingNode (Some 13%Q) ["A"])) structure_types
  /\ headingRun (headingNode (Some 13%Q) ["A"])
     = mkTextRun "A" (Some true) None None (Some (Js.Fin (-2)%Q))
  /\ Docx.runAccepted (headingRun (headingNode (Some 13%Q) ["A"])) = false
  /\ assemble
       (mkSampleWorld (Returned None) (Returned None) (Threw officeError))
       deepHeadingResult
     = Threw badRunError
  /\ ~ (exists blocks,
          assemble
            (mkSampleWorld (Returned None) (Returned None)
               (Threw officeError))
            deepHeadingResult
          = Returned blocks)
  /\ run (pdfToWord
            (mkSampleWorld (Returned (Some deepHeadingResult))
               (Returned None) (Returned sampleOutput)) ocrInput)
     = ([Call_pdfToWordPrompt "data:pdf"], Threw badRunError).
Proof.
  split; [left; reflexivity|]. split; [reflexivity|].
  split; [reflexivity|]. split; [reflexivity|].
  split; [|reflexivity].
  intros [blocks H]. discriminate H.
Qed.

(** ** A colour without its [#] *)

(** X25. The first character of a colour is removed also when it is not
    a [#]. For the extraction whose only content item has the colour
    [FF0000], the run is given the colour [F0000], the run constructor
    refuses it, and the action throws that error after the model call,
    before the packer and without trying the fallback converter. *)
Theorem assembly_throws_on_hashless_colour
    (w : World) (input : PdfToWordInput) :
  conversionMode input <> "no_ocr" ->
  pdfToWordPrompt w (pdfUri input) = Returned (Some hashlessResult) ->
  p_children (contentParagraph hashlessItem)
  = [ mkTextRun "Hi" None None (Some "F0000") (Some (Js.Fin 22)) ]
  /\ assemble w hashlessResult
     = Threw (docxError w
                (mkTextRun "Hi" None None (Some "F0000") (Some (Js.Fin 22))))
  /\ run (pdfToWord w input)
     = ([Call_pdfToWordPrompt (pdfUri input)],
        Threw (docxError w
                 (mkTextRun "Hi" None None (Some "F0000")
                    (Some (Js.Fin 22))))).
Proof.
  intros Hmode Hprompt.
  split; [reflexivity|]. split; [reflexivity|].
  rewrite (pdfToWord_after_extraction w input _ hashlessResult Hmode
             (pdfToWordFlow_primary w (pdfUri input) hashlessResult []
                Hprompt)).
  reflexivity.
Qed.

Lemma assembly_throws_on_hashless_colour_witness :
  run (pdfToWord
         (mkSampleWorld (Returned (Some hashlessResult)) (Returned None)
            (Returned sampleOutput)) ocrInput)
  = ([Call_pdfToWordPrompt "data:pdf"], Threw badRunError).
Proof.
  refine (proj2 (proj2 (assembly_throws_on_hashless_colour
    (mkSampleWorld (Returned (Some hashlessResult)) (Returned None)
       (Returned sampleOutput)) ocrInput _ eq_refl))).
  discriminate.
Defined.

(** ** C3: the extraction orchestrator *)

(** C3. The flow calls the primary model first. If it answers with an
    output, that output is returned and the secondary model is not
    called. If the primary attempt fails (the prompt throws or yields no
    output), the secondary model is called, and its output, when there
    is one, is returned. Only when both attempts fail does the flow
    fail, and then with one error whose message contains the primary
    failure description, the secondary failure description and the hint
    about the API key and outbound network access. *)
Theorem flow_primary_then_secondary (w : World) (uri : string) :
  (forall r, pdfToWordPrompt w uri = Returned (Some r) ->
     run (pdfToWordFlow w uri) = ([Call_pdfToWordPrompt uri], Returned r))
  /\ (forall m1 r,
        primaryFailure w uri = Some m1 ->
        pdfToWordPrompt15 w uri = Returned (Some r) ->
        run (pdfToWordFlow w uri)
        = ([Call_pdfToWordPrompt uri; Call_pdfToWordPrompt15 uri],
           Returned r))
  /\ (forall m1 m2,
        primaryFailure w uri = Some m1 ->
        secondaryFailure w uri = Some m2 ->
        run (pdfToWordFlow w uri)
        = ([Call_pdfToWordPrompt uri; Call_pdfToWordPrompt15 uri],
           Threw (ErrorObj (bothFailedMessage m1 m2)))
        /\ contains (bothFailedMessage m1 m2) m1
        /\ contains (bothFailedMessage m1 m2) m2
        /\ contains (bothFailedMessage m1 m2) credentialsHint)
  /\ (forall log e,
        run (pdfToWordFlow w uri) = (log, Threw e) ->
        exists m1 m2,
          primaryFailure w uri = Some m1
          /\ secondaryFailure w uri = Some m2
          /\ e = ErrorObj (bothFailedMessage m1 m2)).
Proof.
  unfold run. split; [|split; [|split]].
  - intros r H. apply (pdfToWordFlow_primary w uri r [] H).
  - intros m1 r H1 H2. apply (pdfToWordFlow_secondary w uri m1 r [] H1 H2).
  - intros m1 m2 H1 H2. split.
    + apply (pdfToWordFlow_both_fail w uri m1 m2 [] H1 H2).
    + apply bothFailedMessage_contains.
  - intros log e Hrun.
    destruct (pdfToWordFlow_cases w uri)
      as [[r H] | [[m1 [r [H1 H2]]] | [m1 [m2 [H1 H2]]]]].
    + rewrite (pdfToWordFlow_primary w uri r [] H) in Hrun. discriminate.
    + rewrite (pdfToWordFlow_secondary w uri m1 r [] H1 H2) in Hrun.
      discriminate.
    + rewrite (pdfToWordFlow_both_fail w uri m1 m2 [] H1 H2) in Hrun.
      injection Hrun as _ <-. exists m1, m2. auto.
Qed.

Lemma flow_primary_then_secondary_witness :
  run (pdfToWordFlow
         (mkSampleWorld (Threw quotaError) (Returned None)
            (Threw officeError)) "data:pdf")
  = ([Call_pdfToWordPrompt "data:pdf"; Call_pdfToWordPrompt15 "data:pdf"],
     Threw (ErrorObj
       (bothFailedMessage "429 quota exceeded" noOutputMessageFallback))).
Proof.
  apply (proj1 (proj2 (proj2
           (flow_primary_then_secondary
              (mkSampleWorld (Threw quotaError) (Returned None)
                 (Threw officeError)) "data:pdf")))
           "429 quota exceeded" noOutputMessageFallback eq_refl eq_refl).
Defined.

(** ** C4: both the AI path and the fallback converter fail *)

(** C4. With a mode other than [no_ocr], when the extraction fails the
    no-OCR converter is called with the original input. If it answers,
    its output is the result; if it throws as well, the action throws a
    single error whose message is the message of the extraction failure
    (so it contains both model failure descriptions), whatever the
    converter threw. *)
Theorem pipeline_keeps_extraction_error
    (w : World) (input : PdfToWordInput) (m1 m2 : string) :
  conversionMode input <> "no_ocr" ->
  primaryFailure w (pdfUri input) = Some m1 ->
  secondaryFailure w (pdfUri input) = Some m2 ->
  run (pdfToWord w input)
  = ([ Call_pdfToWordPrompt (pdfUri input);
       Call_pdfToWordPrompt15 (pdfUri input);
       Call_pdfToWordNoOcr input ],
     match pdfToWordNoOcr w input with
     | Returned fallback => Returned fallback
     | Threw _ => Threw (ErrorObj (bothFailedMessage m1 m2))
     end)
  /\ (forall e2, pdfToWordNoOcr w input = Threw e2 ->
        snd (run (pdfToWord w input))
        = Threw (ErrorObj (bothFailedMessage m1 m2))
        /\ contains (bothFailedMessage m1 m2) m1
        /\ contains (bothFailedMessage m1 m2) m2).
Proof.
  intros Hmode H1 H2.
  assert (Hrun : run (pdfToWord w input)
    = ([ Call_pdfToWordPrompt (pdfUri input);
         Call_pdfToWordPrompt15 (pdfUri input);
         Call_pdfToWordNoOcr input ],
       match pdfToWordNoOcr w input with
       | Returned fallback => Returned fallback
       | Threw _ => Threw (ErrorObj (bothFailedMessage m1 m2))
       end)).
  { unfold run, pdfToWord.
    apply String.eqb_neq in Hmode. rewrite Hmode.
    unfold bind at 1. unfold tryCatch at 1. unfold bind at 1.
    rewrite (pdfToWordFlow_both_fail w (pdfUri input) m1 m2 [] H1 H2).
    unfold tryCatch, bind, invoke, ret, throw. cbn.
    destruct (pdfToWordNoOcr w input); reflexivity. }
  split; [exact Hrun|].
  intros e2 He2. rewrite Hrun, He2. split; [reflexivity|].
  split; apply bothFailedMessage_contains.
Qed.

Lemma pipeline_keeps_extraction_error_witness :
  snd (run (pdfToWord
              (mkSampleWorld (Threw quotaError) (Returned None)
                 (Threw officeError)) ocrInput))
  = Threw (ErrorObj
      (bothFailedMessage "429 quota exceeded" noOutputMessageFallback)).
Proof.
  refine (proj1 (proj2
    (pipeline_keeps_extraction_error
       (mkSampleWorld (Threw quotaError) (Returned None) (Threw officeError))
       ocrInput "429 quota exceeded" noOutputMessageFallback
       _ eq_refl eq_refl) officeError eq_refl)).
  discriminate.
Defined.

(** ** C7: the no-OCR mode *)

(** C7. With [conversionMode] equal to [no_ocr] the action makes one
    outside call, to the no-OCR converter with the input unchanged, and
    its outcome is the outcome of the action, a returned output as well
    as a thrown error; no model prompt is called. *)
Theorem no_ocr_bypasses_models (w : World) (input : PdfToWordInput) :
  conversionMode input = "no_ocr" ->
  run (pdfToWord w input)
  = ([Call_pdfToWordNoOcr input], pdfToWordNoOcr w input)
  /\ (forall c, In c (fst (run (pdfToWord w input))) ->
        isModelCall c = false).
Proof.
  intros Hmode.
  assert (Hrun : run (pdfToWord w input)
                 = ([Call_pdfToWordNoOcr input], pdfToWordNoOcr w input)).
  { unfold run, pdfToWord. rewrite Hmode. reflexivity. }
  split; [exact Hrun|].
  rewrite Hrun. simpl. intros c [<- | []]. reflexivity.
Qed.

Lemma no_ocr_bypasses_models_witness :
  run (pdfToWord
         (mkSampleWorld (Returned (Some sampleResult)) (Returned None)
            (Returned sampleOutput)) noOcrInput)
  = ([Call_pdfToWordNoOcr noOcrInput], Returned sampleOutput).
Proof.
  exact (proj1 (no_ocr_bypasses_models
                  (mkSampleWorld (Returned (Some sampleResult))
                     (Returned None) (Returned sampleOutput))
                  noOcrInput eq_refl)).
Defined.

(** ** C8 and C10: selection of the Gemini key *)

Section KeySelection.

Import ApiKeysStore.

Variable store : ApiKeysStoreShape.

Local Abbreviation keys := (eligibleKeys store).

Lemma eligible_iff (k : ApiKeyRecord) :
  In k keys
  <-> In k (providers_gemini store)
      /\ enabled k = true /\ flagged k <> Some true.
Proof.
  unfold keys. rewrite filter_In. unfold eligible.
  rewrite andb_true_iff, negb_true_iff.
  destruct (flagged k) as [[|]|]; intuition congruence.
Qed.

Lemma no_eligible_key (time : Z) :
  keys = [] -> getRotatingGeminiKey store time = Returned None.
Proof.
  unfold keys, getRotatingGeminiKey. intros ->. reflexivity.
Qed.

Lemma index_in_range (i : Z) :
  0 <= i < Z.of_nat (length keys) ->
  exists k, nth_error keys (Z.to_nat i) = Some k
            /\ index keys i = Some k.
Proof.
  intros Hi. unfold index.
  destruct (Z.ltb_spec i 0); [lia|].
  destruct (nth_error keys (Z.to_nat i)) as [k|] eqn:E.
  - exists k. split; reflexivity.
  - apply nth_error_None in E. lia.
Qed.

Lemma rotating_key_unfold (time : Z) :
  keys <> [] ->
  rotationEnabled (rotation_gemini store) = true ->
  getRotatingGeminiKey store time
  = match index keys
            (Z.rem (time / interval (strategy (rotation_gemini store)))
               (Z.of_nat (length keys))) with
    | Some k => Returned (Some (key k))
    | None => Threw undefinedKeyError
    end.
Proof.
  intros Hne Hrot. unfold getRotatingGeminiKey. fold keys.
  destruct keys as [|k0 rest] eqn:E; [contradiction|].
  rewrite Hrot. cbn [length Nat.eqb negb].
  destruct (strategy (rotation_gemini store)); reflexivity.
Qed.

Lemma rotating_key_at_bucket (time : Z) :
  keys <> [] ->
  rotationEnabled (rotation_gemini store) = true ->
  0 <= time ->
  exists k,
    nth_error keys
      (Z.to_nat ((time / interval (strategy (rotation_gemini store)))
                 mod Z.of_nat (length keys)))
    = Some k
    /\ getRotatingGeminiKey store time = Returned (Some (key k)).
Proof.
  intros Hne Hrot Htime.
  rewrite (rotating_key_unfold time Hne Hrot).
  set (b := time / interval (strategy (rotation_gemini store))).
  assert (Hb : 0 <= b).
  { unfold b. apply Z.div_pos; [assumption|].
    destruct (strategy (rotation_gemini store)); reflexivity. }
  assert (Hn : 0 < Z.of_nat (length keys)).
  { destruct keys; [contradiction | simpl; lia]. }
  rewrite (Z.rem_mod_nonneg b _ Hb Hn).
  destruct (index_in_range (b mod Z.of_nat (length keys)))
    as [k [Hk Hidx]].
  { apply Z.mod_pos_bound, Hn. }
  exists k. rewrite Hidx. split; [exact Hk | reflexivity].
Qed.

Lemma rotating_key_same_bucket (t1 t2 : Z) :
  rotationEnabled (rotation_gemini store) = true ->
  t1 / interval (strategy (rotation_gemini store))
  = t2 / interval (strategy (rotation_gemini store)) ->
  getRotatingGeminiKey store t1 = getRotatingGeminiKey store t2.
Proof.
  intros Hrot Hsame.
  destruct keys as [|k0 rest] eqn:E.
  - rewrite !no_eligible_key by exact E. reflexivity.
  - assert (Hne : keys <> []) by (rewrite E; discriminate).
    rewrite !rotating_key_unfold by assumption.
    rewrite Hsame. reflexivity.
Qed.

Lemma rotation_disabled_first (time : Z) :
  rotationEnabled (rotation_gemini store) = false ->
  getRotatingGeminiKey store time
  = match keys with
    | [] => Returned None
    | k :: _ => Returned (Some (key k))
    end.
Proof.
  intros Hrot. unfold getRotatingGeminiKey. fold keys.
  destruct keys as [|k0 rest]; [reflexivity|].
  rewrite Hrot. reflexivity.
Qed.

End KeySelection.

(** X26. The eligible keys are the stored keys that are enabled and not
    flagged, in stored order. Without an eligible key the selection
    returns null. With rotation enabled, N eligible keys and a time at
    or after the epoch, the key at index [floor (time / interval) mod N]
    is returned, the interval being 3600000 ms for the hourly strategy
    and 60000 ms for the minute strategy. Two times in the same bucket
    select the same key; in particular two times within the same clock
    hour under the hourly strategy. *)
Theorem rotating_key_time_bucketed
    (store : ApiKeysStore.ApiKeysStoreShape) (time : Z) :
  let keys :=
    filter ApiKeysStore.eligible (ApiKeysStore.providers_gemini store) in
  let rotation := ApiKeysStore.rotation_gemini store in
  (forall k, In k keys
     <-> In k (ApiKeysStore.providers_gemini store)
         /\ ApiKeysStore.enabled k = true
         /\ ApiKeysStore.flagged k <> Some true)
  /\ (keys = [] ->
      ApiKeysStore.getRotatingGeminiKey store time = Returned None)
  /\ (ApiKeysStore.rotationEnabled rotation = true ->
      keys <> [] -> 0 <= time ->
      exists k,
        nth_error keys
          (Z.to_nat
             ((time / ApiKeysStore.interval (ApiKeysStore.strategy rotation))
              mod Z.of_nat (length keys)))
        = Some k
        /\ ApiKeysStore.getRotatingGeminiKey store time
           = Returned (Some (ApiKeysStore.key k)))
  /\ (forall time',
        ApiKeysStore.rotationEnabled rotation = true ->
        ApiKeysStore.strategy rotation = ApiKeysStore.hourly ->
        time / 3600000 = time' / 3600000 ->
        ApiKeysStore.getRotatingGeminiKey store time
        = ApiKeysStore.getRotatingGeminiKey store time')
  /\ (forall time',
        ApiKeysStore.rotationEnabled rotation = true ->
        ApiKeysStore.strategy rotation = ApiKeysStore.minute ->
        time / 60000 = time' / 60000 ->
        ApiKeysStore.getRotatingGeminiKey store time
        = ApiKeysStore.getRotatingGeminiKey store time').
Proof.
  intros keys rotation. split; [|split; [|split; [|split]]].
  - apply eligible_iff.
  - apply no_eligible_key.
  - intros Hrot Hne Htime. apply rotating_key_at_bucket; assumption.
  - intros time' Hrot Hs Hsame.
    apply rotating_key_same_bucket; [assumption|].
    fold rotation. rewrite Hs. exact Hsame.
  - intros time' Hrot Hs Hsame.
    apply rotating_key_same_bucket; [assumption|].
    fold rotation. rewrite Hs. exact Hsame.
Qed.

(** 1700000000000 ms is in hour 472222 since the epoch; with the two
    eligible keys A and D of the sample store, index 0 is selected. *)
Lemma rotating_key_time_bucketed_witness :
  exists k,
    nth_error
      (filter ApiKeysStore.eligible
         (ApiKeysStore.providers_gemini
            (sampleStore true ApiKeysStore.hourly)))
      (Z.to_nat ((1700000000000 / 3600000) mod 2))
    = Some k
    /\ ApiKeysStore.getRotatingGeminiKey
         (sampleStore true ApiKeysStore.hourly) 1700000000000
       = Returned (Some (ApiKeysStore.key k)).
Proof.
  apply (proj1 (proj2 (proj2
           (rotating_key_time_bucketed
              (sampleStore true ApiKeysStore.hourly) 1700000000000)))).
  - reflexivity.
  - discriminate.
  - lia.
Defined.

(** C8. The selection is not the bucketed one at every time. One
    millisecond before the epoch, with rotation enabled, the hourly
    strategy and the two eligible keys A and D, the bucket is -1 and
    [floor (time / interval) mod N] is 1, the index of D; the code takes
    the remainder [-1 % 2], which is -1, finds no record at that index
    and throws instead of returning D. *)
Theorem rotating_key_before_epoch_throws :
  eligibleKeys (sampleStore true ApiKeysStore.hourly)
  = [ sampleKey "A" true None; sampleKey "D" true (Some false) ]
  /\ (-1 / ApiKeysStore.interval ApiKeysStore.hourly) mod 2 = 1
  /\ Z.rem (-1 / ApiKeysStore.interval ApiKeysStore.hourly) 2 = -1
  /\ option_map ApiKeysStore.key
       (nth_error (eligibleKeys (sampleStore true ApiKeysStore.hourly))
          (Z.to_nat ((-1 / ApiKeysStore.interval ApiKeysStore.hourly)
                     mod 2)))
     = Some "D"
  /\ ApiKeysStore.getRotatingGeminiKey
       (sampleStore true ApiKeysStore.hourly) (-1)
     = Threw ApiKeysStore.undefinedKeyError
  /\ ApiKeysStore.getRotatingGeminiKeyAt
       (sampleStore true ApiKeysStore.hourly) (ApiKeysStore.ValidDate (-1))
     = Threw ApiKeysStore.undefinedKeyError.
Proof. repeat split. Qed.

(** C10. With rotation disabled the selection does not look at the
    time: for every time it returns the first eligible key in stored
    order (null when there is none). *)
Theorem rotation_disabled_first_eligible
    (store : ApiKeysStore.ApiKeysStoreShape) :
  ApiKeysStore.rotationEnabled (ApiKeysStore.rotation_gemini store) = false ->
  (forall time,
     ApiKeysStore.getRotatingGeminiKey store time
     = match filter ApiKeysStore.eligible
               (ApiKeysStore.providers_gemini store) with
       | [] => Returned None
       | k :: _ => Returned (Some (ApiKeysStore.key k))
       end)
  /\ (forall time time',
        ApiKeysStore.getRotatingGeminiKey store time
        = ApiKeysStore.getRotatingGeminiKey store time').
Proof.
  intros Hrot. split.
  - intros time. apply rotation_disabled_first, Hrot.
  - intros time time'.
    rewrite !rotation_disabled_first by exact Hrot. reflexivity.
Qed.

Lemma rotation_disabled_first_eligible_witness :
  ApiKeysStore.getRotatingGeminiKey
    (sampleStore false ApiKeysStore.minute) (-5)
  = Returned (Some "A").
Proof.
  exact (proj1 (rotation_disabled_first_eligible
                  (sampleStore false ApiKeysStore.minute) eq_refl) (-5)).
Defined.

(** ** Concrete runs *)

Example sample_docChildren :
  docChildren sampleResult
  = [ BParagraph (mkParagraph (Some "Heading3")
        [ mkTextRun "A title" (Some true) None None (Some (Js.Fin 18)) ]);
      BTable (mkTable
        [ mkTableRow [ tableCell "a"; tableCell "b" ];
          mkTableRow [ tableCell "c" ] ]);
      BParagraph (mkParagraph None [ plainRun "" ]);
      BParagraph (mkParagraph None
        [ mkTextRun "Hi" (Some true) None (Some "FF0000")
            (Some (Js.Fin 24)) ]);
      BParagraph (mkParagraph None
        [ mkTextRun "there" None None None (Some (Js.Fin 22)) ]) ].
Proof. reflexivity. Qed.

Example sample_ai_run :
  run (pdfToWord
         (mkSampleWorld (Threw quotaError) (Returned (Some sampleResult))
            (Threw officeError)) ocrInput)
  = ([ Call_pdfToWordPrompt "data:pdf"; Call_pdfToWordPrompt15 "data:pdf";
       Call_Packer_toBuffer (assembleDocument sampleResult) ],
     Returned (mkOutput (docxUriPrefix ++ "UEs="))).
Proof. reflexivity. Qed.

Example sample_list_block :
  blocksOf (mkStructuralNode "list" None (Some ["x"]) None None None None)
  = [ BParagraph (mkParagraph None
        [ plainRun (bulletPrefix ++ "x" ++ newline) ]) ].
Proof. reflexivity. Qed.

Example sample_image_block :
  blocksOf (mkStructuralNode "image" None None None (Some "") None None)
  = [ BParagraph (mkParagraph None
        [ mkTextRun "[Image: Visual content]" None (Some true)
            (Some "0000FF") None ]) ].
Proof. reflexivity. Qed.

(** A font size of 0 is falsy and gives the default. *)
Example zero_font_size_default :
  p_children (contentParagraph (mkContentItem "x" None None None (Some 0%Q)))
  = [ mkTextRun "x" None None None (Some (Js.Fin 22)) ].
Proof. reflexivity. Qed.

(** Minute rotation over the two eligible keys of the sample store. *)
Example minute_rotation_alternates :
  ApiKeysStore.getRotatingGeminiKey
    (sampleStore true ApiKeysStore.minute) 120000 = Returned (Some "A")
  /\ ApiKeysStore.getRotatingGeminiKey
       (sampleStore true ApiKeysStore.minute) 180000 = Returned (Some "D")
  /\ ApiKeysStore.getRotatingGeminiKey
       (sampleStore true ApiKeysStore.minute) 239999 = Returned (Some "D").
Proof. repeat split. Qed.

(** Before the epoch the remainder is negative and the lookup finds no
    record. *)
Example rotation_before_epoch :
  ApiKeysStore.getRotatingGeminiKey
    (sampleStore true ApiKeysStore.hourly) (-1)
  = Threw ApiKeysStore.undefinedKeyError.
Proof. reflexivity. Qed.

(** ** Key selection: what is returned, when it fails, how it rotates *)

Section SelectionFacts.

Import ApiKeysStore.

Lemma index_In {A} (arr : list A) (i : Z) (x : A) :
  index arr i = Some x -> In x arr.
Proof.
  unfold index. destruct (i <? 0); [discriminate|].
  apply nth_error_In.
Qed.

Lemma selection_from_eligible
    (store : ApiKeysStoreShape) (time : Z) (s : string) :
  getRotatingGeminiKey store time = Returned (Some s) ->
  exists k, In k (eligibleKeys store) /\ key k = s.
Proof.
  intros H.
  unfold getRotatingGeminiKey in H. fold (eligibleKeys store) in H.
  destruct (length (eligibleKeys store) =? 0)%nat; [discriminate|].
  destruct (negb (rotationEnabled (rotation_gemini store))).
  - destruct (index (eligibleKeys store) 0) as [k|] eqn:E;
      [|discriminate].
    injection H as <-. exists k. split; [|reflexivity].
    apply (index_In _ _ _ E).
  - match type of H with
    | match index ?l ?i with _ => _ end = _ =>
        destruct (index l i) as [k|] eqn:E; [|discriminate]
    end.
    injection H as <-. exists k. split; [|reflexivity].
    apply (index_In _ _ _ E).
Qed.

(** X1. Whatever the configuration and the time, a key that is returned
    is the key of a stored record that is enabled and not flagged. *)
Theorem selected_key_is_eligible
    (store : ApiKeysStoreShape) (time : Z) (s : string) :
  getRotatingGeminiKey store time = Returned (Some s) ->
  exists k,
    In k (providers_gemini store)
    /\ key k = s /\ enabled k = true /\ flagged k <> Some true.
Proof.
  intros H.
  destruct (selection_from_eligible store time s H) as [k [Hin Hkey]].
  apply eligible_iff in Hin. destruct Hin as [Hin [Hen Hfl]].
  exists k. auto.
Qed.

Lemma selected_key_is_eligible_witness :
  exists k,
    In k (providers_gemini (sampleStore true minute))
    /\ key k = "D" /\ enabled k = true /\ flagged k <> Some true.
Proof.
  apply (selected_key_is_eligible (sampleStore true minute) 60000 "D").
  reflexivity.
Defined.

(** The selection at a valid date. *)
Lemma selection_valid_date
    (store : ApiKeysStoreShape) (time : Z) :
  (getRotatingGeminiKey store time = Returned None
   <-> eligibleKeys store = [])
  /\ (forall e,
        getRotatingGeminiKey store time = Threw e ->
        rotationEnabled (rotation_gemini store) = true
        /\ eligibleKeys store <> [] /\ time < 0)
  /\ (0 <= time -> forall e, getRotatingGeminiKey store time <> Threw e).
Proof.
  assert (Hcases :
    eligibleKeys store = []
    \/ (eligibleKeys store <> []
        /\ exists s, getRotatingGeminiKey store time = Returned (Some s))
    \/ (eligibleKeys store <> []
        /\ rotationEnabled (rotation_gemini store) = true /\ time < 0)).
  { destruct (eligibleKeys store) as [|k0 rest] eqn:E; [left; reflexivity|].
    right.
    assert (Hne : eligibleKeys store <> []) by (rewrite E; discriminate).
    rewrite <- E.
    destruct (rotationEnabled (rotation_gemini store)) eqn:Hrot.
    - destruct (Z.lt_ge_cases time 0) as [Hneg | Hpos].
      + right. auto.
      + left. split; [exact Hne|].
        destruct (rotating_key_at_bucket store time Hne Hrot Hpos)
          as [k [_ Hk]].
        exists (key k). exact Hk.
    - left. split; [exact Hne|].
      rewrite (rotation_disabled_first store time Hrot), E.
      eexists. reflexivity. }
  split; [|split].
  - split.
    + intros H. destruct Hcases as [Hc | [[_ [s Hs]] | [Hne [Hrot Hneg]]]].
      * exact Hc.
      * rewrite Hs in H. discriminate.
      * rewrite (rotating_key_unfold store time Hne Hrot) in H.
        destruct (index _ _); discriminate.
    + apply no_eligible_key.
  - intros e H. destruct Hcases as [Hc | [[_ [s Hs]] | [Hne [Hrot Hneg]]]].
    + rewrite (no_eligible_key store time Hc) in H. discriminate.
    + rewrite Hs in H. discriminate.
    + auto.
  - intros Hpos e H.
    destruct Hcases as [Hc | [[_ [s Hs]] | [Hne [Hrot Hneg]]]].
    + rewrite (no_eligible_key store time Hc) in H. discriminate.
    + rewrite Hs in H. discriminate.
    + lia.
Qed.

(** X2. The selection returns null exactly when no record is eligible.
    It throws only with rotation enabled and at least one eligible
    record, and then only for an invalid date or a time before the
    epoch: for a valid date from the epoch on it never throws, and for
    an invalid date with rotation enabled and an eligible record it
    always throws. *)
Theorem selection_null_and_failure
    (store : ApiKeysStoreShape) (date : Date) :
  (getRotatingGeminiKeyAt store date = Returned None
   <-> eligibleKeys store = [])
  /\ (forall e,
        getRotatingGeminiKeyAt store date = Threw e ->
        rotationEnabled (rotation_gemini store) = true
        /\ eligibleKeys store <> []
        /\ (date = InvalidDate
            \/ exists time, date = ValidDate time /\ time < 0))
  /\ (forall time,
        date = ValidDate time -> 0 <= time ->
        forall e, getRotatingGeminiKeyAt store date <> Threw e)
  /\ (date = InvalidDate ->
      rotationEnabled (rotation_gemini store) = true ->
      eligibleKeys store <> [] ->
      getRotatingGeminiKeyAt store date = Threw undefinedKeyError).
Proof.
  destruct date as [time|].
  - destruct (selection_valid_date store time) as [Hnull [Hthrow Hsafe]].
    cbn [getRotatingGeminiKeyAt].
    split; [exact Hnull|]. split; [|split].
    + intros e He. destruct (Hthrow e He) as [Hrot [Hne Hneg]].
      split; [exact Hrot|]. split; [exact Hne|].
      right. exists time. auto.
    + intros t [= <-] Hpos. apply Hsafe, Hpos.
    + discriminate.
  - unfold getRotatingGeminiKeyAt. fold (eligibleKeys store).
    destruct (eligibleKeys store) as [|k0 rest] eqn:E.
    + split; [split; reflexivity|]. split; [discriminate|].
      split; [discriminate|]. intros _ _ H. contradiction.
    + cbn [length Nat.eqb].
      destruct (rotationEnabled (rotation_gemini store)); cbn [negb index].
      * split; [split; discriminate|]. split.
        { intros e _. repeat split; [discriminate | left; reflexivity]. }
        split; [discriminate|]. reflexivity.
      * cbn. split; [split; discriminate|]. split; [discriminate|].
        split; [discriminate|]. discriminate.
Qed.

Lemma selection_null_and_failure_witness :
  getRotatingGeminiKeyAt (sampleStore true hourly) InvalidDate
  = Threw undefinedKeyError.
Proof.
  apply (proj2 (proj2 (proj2 (selection_null_and_failure
                                (sampleStore true hourly) InvalidDate))));
    [reflexivity | reflexivity | discriminate].
Defined.

(** X3. With rotation enabled and a time from the epoch on, one interval
    later the next eligible key in stored order is selected, wrapping
    around after the last one, and after as many intervals as there are
    eligible keys the same key is selected again. *)
Theorem rotation_advances_cyclically
    (store : ApiKeysStoreShape) (time : Z) :
  rotationEnabled (rotation_gemini store) = true ->
  eligibleKeys store <> [] ->
  0 <= time ->
  let step := interval (strategy (rotation_gemini store)) in
  let n := Z.of_nat (length (eligibleKeys store)) in
  (exists k,
     nth_error (eligibleKeys store)
       (Z.to_nat (((time / step) mod n + 1) mod n)) = Some k
     /\ getRotatingGeminiKey store (time + step) = Returned (Some (key k)))
  /\ getRotatingGeminiKey store (time + n * step)
     = getRotatingGeminiKey store time.
Proof.
  intros Hrot Hne Htime step n.
  assert (Hstep : 0 < step)
    by (unfold step; destruct (strategy (rotation_gemini store));
        reflexivity).
  assert (Hn : 0 < n)
    by (unfold n; destruct (eligibleKeys store);
        [contradiction | simpl; lia]).
  split.
  - destruct (rotating_key_at_bucket store (time + step) Hne Hrot
                ltac:(lia)) as [k [Hk Hsel]].
    exists k. split; [|exact Hsel].
    fold step n in Hk.
    replace (time + step) with (time + 1 * step) in Hk by lia.
    rewrite Z.div_add in Hk by lia.
    rewrite Z.add_mod_idemp_l by lia. exact Hk.
  - destruct (rotating_key_at_bucket store (time + n * step) Hne Hrot
                ltac:(nia)) as [k [Hk Hsel]].
    destruct (rotating_key_at_bucket store time Hne Hrot Htime)
      as [k' [Hk' Hsel']].
    fold step n in Hk, Hk'.
    rewrite Z.div_add in Hk by lia.
    replace (time / step + n) with (time / step + 1 * n) in Hk by lia.
    rewrite Z.mod_add in Hk by lia.
    rewrite Hk' in Hk. injection Hk as ->.
    rewrite Hsel, Hsel'. reflexivity.
Qed.

Lemma rotation_advances_cyclically_witness :
  getRotatingGeminiKey (sampleStore true minute) (60000 + 2 * 60000)
  = getRotatingGeminiKey (sampleStore true minute) 60000.
Proof.
  apply (proj2 (rotation_advances_cyclically (sampleStore true minute) 60000
                  eq_refl ltac:(discriminate) ltac:(lia))).
Defined.

(** X4. With rotation enabled, every eligible key gets its turn: from
    any time at or after the epoch, each eligible record is the one
    selected in one of the next N intervals, N being the number of
    eligible records. *)
Theorem rotation_reaches_every_key
    (store : ApiKeysStoreShape) (time : Z) (i : nat) (k : ApiKeyRecord) :
  rotationEnabled (rotation_gemini store) = true ->
  0 <= time ->
  nth_error (eligibleKeys store) i = Some k ->
  exists j,
    0 <= j < Z.of_nat (length (eligibleKeys store))
    /\ getRotatingGeminiKey store
         (time + j * interval (strategy (rotation_gemini store)))
       = Returned (Some (key k)).
Proof.
  intros Hrot Htime Hi.
  set (step := interval (strategy (rotation_gemini store))).
  set (n := Z.of_nat (length (eligibleKeys store))).
  assert (Hstep : 0 < step)
    by (unfold step; destruct (strategy (rotation_gemini store));
        reflexivity).
  assert (Hlt : (i < length (eligibleKeys store))%nat)
    by (apply nth_error_Some; rewrite Hi; discriminate).
  assert (Hne : eligibleKeys store <> [])
    by (destruct (eligibleKeys store); [simpl in Hlt; lia | discriminate]).
  assert (Hn : 0 < n) by (unfold n; lia).
  set (j := (Z.of_nat i - time / step) mod n).
  assert (Hj : 0 <= j < n) by (apply Z.mod_pos_bound; exact Hn).
  exists j. split; [exact Hj|].
  destruct (rotating_key_at_bucket store (time + j * step) Hne Hrot
              ltac:(nia)) as [k' [Hk' Hsel]].
  fold step n in Hk'.
  rewrite Z.div_add in Hk' by lia.
  unfold j in Hk'. rewrite Z.add_mod_idemp_r in Hk' by lia.
  replace (time / step + (Z.of_nat i - time / step)) with (Z.of_nat i)
    in Hk' by lia.
  rewrite Z.mod_small in Hk' by (unfold n; lia).
  rewrite Nat2Z.id, Hi in Hk'. injection Hk' as <-. exact Hsel.
Qed.

Lemma rotation_reaches_every_key_witness :
  exists j,
    0 <= j < 2
    /\ getRotatingGeminiKey (sampleStore true hourly)
         (1700000000000 + j * 3600000)
       = Returned (Some "D").
Proof.
  apply (rotation_reaches_every_key (sampleStore true hourly) 1700000000000
           1%nat (sampleKey "D" true (Some false)) eq_refl ltac:(lia)
           eq_refl).
Defined.

(** X5. With exactly one eligible record its key is returned at every
    time, before the epoch too, with rotation enabled or not. *)
Theorem single_eligible_key_always_selected
    (store : ApiKeysStoreShape) (k : ApiKeyRecord) (time : Z) :
  eligibleKeys store = [k] ->
  getRotatingGeminiKey store time = Returned (Some (key k)).
Proof.
  intros H. unfold getRotatingGeminiKey. fold (eligibleKeys store).
  rewrite H. cbn [length Nat.eqb Z.of_nat Pos.of_succ_nat].
  destruct (negb (rotationEnabled (rotation_gemini store)));
    [reflexivity|].
  rewrite Z.rem_1_r. reflexivity.
Qed.

Lemma single_eligible_key_always_selected_witness :
  getRotatingGeminiKey
    (mkStore [sampleKey "A" true None; sampleKey "B" false None]
       (mkRotationConfig true hourly)) (-7200001)
  = Returned (Some "A").
Proof.
  apply (single_eligible_key_always_selected
           (mkStore [sampleKey "A" true None; sampleKey "B" false None]
              (mkRotationConfig true hourly))
           (sampleKey "A" true None) (-7200001)).
  reflexivity.
Defined.

End SelectionFacts.

(** ** Masking a key for display *)

Section MaskFacts.

Import StoreOps.

Lemma length_append (a b : string) :
  String.length (a ++ b) = (String.length a + String.length b)%nat.
Proof. induction a as [|c a IH]; simpl; [reflexivity | now rewrite IH]. Qed.

Lemma length_substring (k n : nat) (s : string) :
  String.length (substring k n s) = Nat.min n (String.length s - k).
Proof.
  revert k n. induction s as [|c s IH]; intros k n.
  - destruct k, n; reflexivity.
  - destruct k as [|k].
    + destruct n as [|n]; [reflexivity|].
      simpl. rewrite IH, Nat.sub_0_r. reflexivity.
    + simpl. apply IH.
Qed.

Lemma substring_front_all (n : nat) (s : string) :
  (String.length s <= n)%nat -> substring 0 n s = s.
Proof.
  revert n. induction s as [|c s IH]; intros n H.
  - destruct n; reflexivity.
  - destruct n as [|n]; simpl in H; [lia|].
    simpl. rewrite IH by lia. reflexivity.
Qed.

Lemma substring_front_append (a b : string) :
  substring 0 (String.length a) (a ++ b) = a.
Proof.
  induction a as [|c a IH]; simpl.
  - destruct b; reflexivity.
  - rewrite IH. reflexivity.
Qed.

Lemma substring_skip_append (a b : string) (k n : nat) :
  substring (String.length a + k) n (a ++ b) = substring k n b.
Proof. induction a as [|c a IH]; simpl; [reflexivity | exact IH]. Qed.

(** X6. The mask of the empty key is empty. A key of up to 8
    characters is masked as its first four characters followed by four
    stars; a key of up to 4 characters is therefore shown in full. *)
Theorem maskKey_short (keyValue : string) :
  (String.length keyValue <= 8)%nat ->
  (keyValue = "" -> maskKey keyValue = "")
  /\ (keyValue <> "" -> (String.length keyValue <= 4)%nat ->
      maskKey keyValue = keyValue ++ "****")
  /\ (forall a b, keyValue = a ++ b -> String.length a = 4%nat ->
      maskKey keyValue = a ++ "****")
  /\ (keyValue <> "" ->
      String.length (maskKey keyValue)
      = (Nat.min 4 (String.length keyValue) + 4)%nat).
Proof.
  intros Hlen.
  assert (Hmask : keyValue <> "" ->
                  maskKey keyValue = sliceFront 4 keyValue ++ "****").
  { intros Hne. unfold maskKey. destruct keyValue as [|c r];
      [contradiction|].
    destruct (Nat.leb_spec (String.length (String c r)) 8);
      [reflexivity | lia]. }
  split; [|split; [|split]].
  - intros ->. reflexivity.
  - intros Hne H4. rewrite (Hmask Hne). unfold sliceFront.
    rewrite substring_front_all by exact H4. reflexivity.
  - intros a b Hk Ha.
    assert (Hne : keyValue <> "").
    { intros ->. destruct a; simpl in *; discriminate. }
    rewrite (Hmask Hne), Hk. unfold sliceFront.
    rewrite <- Ha, substring_front_append. reflexivity.
  - intros Hne. rewrite (Hmask Hne), length_append. unfold sliceFront.
    rewrite length_substring, Nat.sub_0_r. reflexivity.
Qed.

Lemma maskKey_short_witness :
  maskKey "abc" = "abc****" /\ maskKey "abcdefgh" = "abcd****".
Proof.
  split.
  - apply (proj1 (proj2 (maskKey_short "abc" ltac:(simpl; lia))));
      [discriminate | simpl; lia].
  - apply (proj1 (proj2 (proj2 (maskKey_short "abcdefgh"
                                  ltac:(simpl; lia)))) "abcd" "efgh");
      reflexivity.
Defined.

Lemma maskKey_over_8 (keyValue : string) :
  (8 < String.length keyValue)%nat ->
  maskKey keyValue
  = sliceFront 6 keyValue ++ "..." ++ sliceBack 4 keyValue.
Proof.
  intros H. unfold maskKey.
  destruct (Nat.leb_spec (String.length keyValue) 8); [lia|].
  destruct keyValue; [simpl in H; lia | reflexivity].
Qed.

(** X7. The mask of a key of more than 8 characters has 13 characters:
    the first six of the key, three dots and the last four. What lies
    between is left out, so two keys that differ only there have the
    same mask, and a key of exactly 10 characters is shown in full. *)
Theorem maskKey_long (a middle b : string) :
  String.length a = 6%nat ->
  String.length b = 4%nat ->
  maskKey (a ++ middle ++ b) = a ++ "..." ++ b
  /\ (forall middle', maskKey (a ++ middle' ++ b) = maskKey (a ++ middle ++ b))
  /\ (forall keyValue,
        (8 < String.length keyValue)%nat ->
        String.length (maskKey keyValue) = 13%nat).
Proof.
  intros Ha Hb.
  assert (Hmask : forall m, maskKey (a ++ m ++ b) = a ++ "..." ++ b).
  { intros m.
    assert (Hlen : String.length (a ++ m ++ b)
                   = (6 + String.length m + 4)%nat)
      by (rewrite !length_append, Ha, Hb; lia).
    rewrite maskKey_over_8 by lia.
    unfold sliceFront, sliceBack.
    rewrite <- Ha at 1. rewrite substring_front_append.
    rewrite Hlen.
    replace (6 + String.length m + 4 - 4)%nat
      with (String.length a + (String.length m + 0))%nat by lia.
    rewrite !substring_skip_append.
    rewrite substring_front_all by lia. reflexivity. }
  split; [apply Hmask|]. split.
  - intros m'. rewrite !Hmask. reflexivity.
  - intros keyValue Hlen. rewrite maskKey_over_8 by exact Hlen.
    unfold sliceFront, sliceBack.
    rewrite !length_append, !length_substring. simpl String.length.
    lia.
Qed.

Lemma maskKey_long_witness :
  maskKey "AIzaSyDUMMY-0123456789wxyz" = "AIzaSy...wxyz".
Proof.
  apply (proj1 (maskKey_long "AIzaSy" "DUMMY-0123456789" "wxyz"
                  eq_refl eq_refl)).
Defined.

End MaskFacts.

(** ** The operations on stored keys *)

Section StoreOpsFacts.

Import ApiKeysStore StoreOps.

Lemma store_eta (store : ApiKeysStoreShape) :
  mkStore (providers_gemini store) (rotation_gemini store) = store.
Proof. destruct store; reflexivity. Qed.

Lemma filter_all {A} (p : A -> bool) (l : list A) :
  (forall x, In x l -> p x = true) -> filter p l = l.
Proof.
  induction l as [|x l IH]; intros H; simpl; [reflexivity|].
  rewrite (H x (or_introl eq_refl)), IH; [reflexivity|].
  intros y Hy. apply H. right. exact Hy.
Qed.

Lemma filter_shorter {A} (p : A -> bool) (l : list A) :
  (length (filter p l) <? length l)%nat = true
  <-> exists x, In x l /\ p x = false.
Proof.
  rewrite Nat.ltb_lt. induction l as [|x l IH]; simpl.
  - split; [lia | intros [x [[] _]]].
  - pose proof (filter_length_le p l) as Hle.
    destruct (p x) eqn:E; simpl.
    + rewrite <- Nat.succ_lt_mono, IH. split.
      * intros [y [Hy Hp]]. exists y. auto.
      * intros [y [[<- | Hy] Hp]]; [congruence | exists y; auto].
    + split; [|lia]. intros _. exists x. auto.
Qed.

(** Where the first match sits, and what updating it gives. *)
Lemma find_split {A} (p : A -> bool) (l : list A) (x : A) :
  find p l = Some x ->
  exists pre post,
    l = (pre ++ x :: post)%list
    /\ (forall y, In y pre -> p y = false)
    /\ p x = true
    /\ forall f, updateFirst p f l = (pre ++ f x :: post)%list.
Proof.
  induction l as [|y l IH]; simpl; [discriminate|].
  destruct (p y) eqn:E.
  - intros [= ->]. exists [], l. repeat split; auto.
    intros z [].
  - intros H. destruct (IH H) as [pre [post [Hl [Hpre [Hx Hup]]]]].
    exists (y :: pre), post. repeat split.
    + simpl. rewrite Hl. reflexivity.
    + intros z [<- | Hz]; [exact E | apply Hpre, Hz].
    + exact Hx.
    + intros f. simpl. rewrite Hup. reflexivity.
Qed.

Lemma find_middle {A} (p : A -> bool) (pre post : list A) (x : A) :
  (forall y, In y pre -> p y = false) -> p x = true ->
  find p (pre ++ x :: post) = Some x.
Proof.
  intros Hpre Hx. induction pre as [|y pre IH]; simpl.
  - rewrite Hx. reflexivity.
  - rewrite (Hpre y (or_introl eq_refl)). apply IH.
    intros z Hz. apply Hpre. right. exact Hz.
Qed.

Lemma findIndex_spec {A} (p : A -> bool) (l : list A) :
  match find p l with
  | None => findIndex p l = -1
  | Some x =>
      0 <= findIndex p l
      /\ nth_error l (Z.to_nat (findIndex p l)) = Some x
  end.
Proof.
  induction l as [|y l IH]; simpl; [reflexivity|].
  destruct (p y); [split; [lia | reflexivity]|].
  destruct (find p l) as [x|].
  - destruct IH as [Hge Hnth].
    destruct (Z.eqb_spec (findIndex p l) (-1)); [lia|].
    split; [lia|].
    rewrite Z2Nat.inj_add by lia. rewrite Nat.add_comm. exact Hnth.
  - rewrite IH. reflexivity.
Qed.

Lemma updateAt_findIndex {A} (p : A -> bool) (f : A -> A) (l : list A) x :
  find p l = Some x ->
  updateAt (Z.to_nat (findIndex p l)) f l = updateFirst p f l.
Proof.
  induction l as [|y l IH]; simpl; [discriminate|].
  destruct (p y); [reflexivity|].
  intros H. pose proof (findIndex_spec p l) as Hs. rewrite H in Hs.
  destruct Hs as [Hge _].
  destruct (Z.eqb_spec (findIndex p l) (-1)); [lia|].
  rewrite Z2Nat.inj_add by lia. rewrite Nat.add_comm. simpl.
  rewrite (IH H). reflexivity.
Qed.

Lemma hasId_true (wanted : string) (k : ApiKeyRecord) :
  hasId wanted k = true <-> id k = wanted.
Proof. unfold hasId. apply String.eqb_eq. Qed.

Lemma hasId_false (wanted : string) (k : ApiKeyRecord) :
  hasId wanted k = false <-> id k <> wanted.
Proof. unfold hasId. apply String.eqb_neq. Qed.

Lemma hasKey_true (wanted : string) (k : ApiKeyRecord) :
  hasKey wanted k = true <-> key k = wanted.
Proof. unfold hasKey. apply String.eqb_eq. Qed.

Lemma hasKey_false (wanted : string) (k : ApiKeyRecord) :
  hasKey wanted k = false <-> key k <> wanted.
Proof. unfold hasKey. apply String.eqb_neq. Qed.

Lemma nth_error_updateAt {A} (f : A -> A) (l : list A) (i : nat) :
  nth_error (updateAt i f l) i = option_map f (nth_error l i).
Proof.
  revert i. induction l as [|y l IH]; intros [|i]; simpl;
    try reflexivity.
  apply IH.
Qed.

(** What [disableGeminiKeyByValue] does when a record has the key. *)
Lemma disable_found (store : ApiKeysStoreShape) (keyValue : string)
    (found : ApiKeyRecord) :
  find (hasKey keyValue) (providers_gemini store) = Some found ->
  disableGeminiKeyByValue store keyValue
  = (mkStore
       (updateFirst (hasKey keyValue)
          (fun k => withFlagged true (withEnabled false k))
          (providers_gemini store))
       (rotation_gemini store),
     Some (withFlagged true (withEnabled false found))).
Proof.
  intros H. unfold disableGeminiKeyByValue.
  pose proof (findIndex_spec (hasKey keyValue) (providers_gemini store))
    as Hs.
  rewrite H in Hs. destruct Hs as [Hge Hnth].
  destruct (Z.eqb_spec (findIndex (hasKey keyValue) (providers_gemini store))
              (-1)); [lia|].
  unfold index.
  destruct (Z.ltb_spec (findIndex (hasKey keyValue) (providers_gemini store))
              0); [lia|].
  rewrite nth_error_updateAt, Hnth.
  rewrite (updateAt_findIndex _ _ _ _ H). reflexivity.
Qed.

Lemma disable_missing (store : ApiKeysStoreShape) (keyValue : string) :
  find (hasKey keyValue) (providers_gemini store) = None ->
  disableGeminiKeyByValue store keyValue = (store, None).
Proof.
  intros H. unfold disableGeminiKeyByValue.
  pose proof (findIndex_spec (hasKey keyValue) (providers_gemini store))
    as Hs.
  rewrite H in Hs. rewrite Hs. reflexivity.
Qed.

Lemma eligibleKeys_middle (pre post : list ApiKeyRecord)
    (x x' : ApiKeyRecord) rot :
  eligible x = false -> eligible x' = false ->
  eligibleKeys (mkStore (pre ++ x' :: post) rot)
  = eligibleKeys (mkStore (pre ++ x :: post) rot).
Proof.
  intros Hx Hx'. unfold eligibleKeys. simpl.
  rewrite !filter_app. simpl. rewrite Hx, Hx'. reflexivity.
Qed.

(** X8. Adding a key appends one record at the end of the stored keys,
    with the given key and label, enabled and not flagged; the eligible
    keys grow by exactly this record at the end, so earlier keys keep
    their rotation order, and the rotation settings are untouched. If no
    key was eligible before, the new key is the one selected at every
    time. *)
Theorem add_key_appends (store : ApiKeysStoreShape)
    (random now keyValue : string) (newLabel : option string) :
  let store' := fst (addGeminiKey store random now keyValue newLabel) in
  let record := snd (addGeminiKey store random now keyValue newLabel) in
  getGeminiKeys store' = (getGeminiKeys store ++ [record])%list
  /\ eligibleKeys store' = (eligibleKeys store ++ [record])%list
  /\ getGeminiRotation store' = getGeminiRotation store
  /\ key record = keyValue /\ label record = newLabel
  /\ enabled record = true /\ flagged record = None
  /\ (eligibleKeys store = [] ->
      forall time,
        getRotatingGeminiKey store' time = Returned (Some keyValue)).
Proof.
  intros store' record. repeat split.
  - unfold eligibleKeys, store', record. simpl.
    rewrite filter_app. reflexivity.
  - intros Hnone time.
    assert (He : eligibleKeys store' = [record]).
    { unfold eligibleKeys, store', record. simpl.
      rewrite filter_app. fold (eligibleKeys store). rewrite Hnone.
      reflexivity. }
    unfold getRotatingGeminiKey. fold (eligibleKeys store'). rewrite He.
    cbn [length Nat.eqb Z.of_nat Pos.of_succ_nat].
    destruct (negb (rotationEnabled (rotation_gemini store')));
      [reflexivity|].
    rewrite Z.rem_1_r. reflexivity.
Qed.

Lemma add_key_appends_witness :
  getRotatingGeminiKey
    (fst (addGeminiKey (mkStore [sampleKey "B" false None]
                          (mkRotationConfig true hourly))
            "0a1b2c3d" "2024-05-01T10:00:00.000Z" "NEW" None))
    1700000000000
  = Returned (Some "NEW").
Proof.
  apply (proj2 (proj2 (proj2 (proj2 (proj2 (proj2 (proj2
           (add_key_appends (mkStore [sampleKey "B" false None]
                               (mkRotationConfig true hourly))
              "0a1b2c3d" "2024-05-01T10:00:00.000Z" "NEW" None)))))))).
  reflexivity.
Defined.

(** X9. Deleting by id removes every record with that id and keeps all
    others in their stored order, eligible ones included: the stored
    keys afterwards are the former ones filtered by the id, and when
    exactly one record had the id, they are the records before it
    followed by the records after it. The answer is true exactly when
    some record had the id; deleting an id that is not stored leaves
    the store as it was, so a second deletion answers false. The
    rotation settings are untouched. *)
Theorem delete_key_removes_id (store : ApiKeysStoreShape) (wanted : string) :
  let store' := fst (deleteGeminiKey store wanted) in
  getGeminiKeys store'
  = filter (fun k => negb (String.eqb (id k) wanted)) (getGeminiKeys store)
  /\ (forall pre x post,
        getGeminiKeys store = (pre ++ x :: post)%list ->
        id x = wanted ->
        (forall k, In k pre \/ In k post -> id k <> wanted) ->
        getGeminiKeys store' = (pre ++ post)%list
        /\ snd (deleteGeminiKey store wanted) = true)
  /\ (forall k, In k (getGeminiKeys store')
                <-> In k (getGeminiKeys store) /\ id k <> wanted)
  /\ eligibleKeys store'
     = filter (fun k => negb (hasId wanted k)) (eligibleKeys store)
  /\ (snd (deleteGeminiKey store wanted) = true
      <-> exists k, In k (getGeminiKeys store) /\ id k = wanted)
  /\ (snd (deleteGeminiKey store wanted) = false -> store' = store)
  /\ getGeminiRotation store' = getGeminiRotation store
  /\ snd (deleteGeminiKey store' wanted) = false.
Proof.
  intros store'.
  assert (Hin : forall k, In k (getGeminiKeys store')
                          <-> In k (getGeminiKeys store) /\ id k <> wanted).
  { intros k. unfold store', getGeminiKeys. simpl.
    rewrite filter_In, negb_true_iff, hasId_false. reflexivity. }
  assert (Hret : forall s,
            snd (deleteGeminiKey s wanted) = true
            <-> exists k, In k (getGeminiKeys s) /\ id k = wanted).
  { intros s. unfold deleteGeminiKey, getGeminiKeys. simpl.
    rewrite filter_shorter. split; intros [k [Hk Hp]]; exists k;
      (split; [exact Hk|]).
    - apply negb_false_iff, hasId_true in Hp. exact Hp.
    - apply negb_false_iff, hasId_true. exact Hp. }
  split; [reflexivity|]. split.
  { intros pre x post Hl Hx Hothers. split.
    - unfold store', getGeminiKeys, deleteGeminiKey in *.
      cbn [fst providers_gemini]. rewrite Hl, filter_app. cbn [filter].
      assert (Hxp : hasId wanted x = true) by (apply hasId_true, Hx).
      rewrite Hxp. cbn [negb].
      rewrite !filter_all; [reflexivity | |];
        intros k Hk; apply negb_true_iff, hasId_false, Hothers; auto.
    - apply Hret. exists x. split; [|exact Hx].
      rewrite Hl. apply in_or_app. right. left. reflexivity. }
  split; [exact Hin|]. split; [|split; [apply Hret|split; [|split]]].
  - unfold eligibleKeys, store'. simpl.
    induction (providers_gemini store) as [|k l IH]; simpl;
      [reflexivity|].
    destruct (hasId wanted k) eqn:E1, (eligible k) eqn:E2; simpl;
      rewrite ?E1, ?E2; simpl; rewrite ?IH; reflexivity.
  - intros Hfalse. unfold store'. simpl.
    rewrite filter_all; [apply store_eta|].
    intros k Hk. apply negb_true_iff. apply hasId_false. intros Hid.
    assert (Ht : snd (deleteGeminiKey store wanted) = true)
      by (apply Hret; exists k; auto).
    congruence.
  - reflexivity.
  - destruct (snd (deleteGeminiKey store' wanted)) eqn:E; [|reflexivity].
    apply Hret in E. destruct E as [k [Hk Hid]].
    apply Hin in Hk. destruct Hk as [_ Hne]. contradiction.
Qed.

Lemma delete_key_removes_id_witness :
  getGeminiKeys (fst (deleteGeminiKey (sampleStore true hourly) "key_B"))
  = [ sampleKey "A" true None; sampleKey "C" true (Some true);
      sampleKey "D" true (Some false) ]
  /\ snd (deleteGeminiKey (sampleStore true hourly) "key_B") = true.
Proof.
  apply (proj1 (proj2 (delete_key_removes_id (sampleStore true hourly)
                         "key_B"))
           [sampleKey "A" true None] (sampleKey "B" false None)
           [sampleKey "C" true (Some true); sampleKey "D" true (Some false)]).
  - reflexivity.
  - reflexivity.
  - simpl. intros k [[<- | []] | [<- | [<- | []]]]; discriminate.
Defined.

(** X10. Adding a key and then deleting the id it was given restores
    the store, provided no stored record already had that id; the
    deletion answers true. *)
Theorem add_then_delete_restores (store : ApiKeysStoreShape)
    (random now keyValue : string) (newLabel : option string) :
  (forall k, In k (getGeminiKeys store) -> id k <> generateId random) ->
  let added := addGeminiKey store random now keyValue newLabel in
  deleteGeminiKey (fst added) (id (snd added)) = (store, true).
Proof.
  intros Hfresh added. unfold added, deleteGeminiKey, addGeminiKey.
  cbn [fst snd providers_gemini rotation_gemini id].
  set (record := mkApiKeyRecord (generateId random) gemini keyValue newLabel
                   now true None).
  assert (Hkept :
    filter (fun k => negb (hasId (generateId random) k))
      (providers_gemini store ++ [record])
    = providers_gemini store).
  { rewrite filter_app. cbn [filter].
    unfold hasId at 2. unfold record at 1. cbn [id].
    rewrite String.eqb_refl. cbn [negb]. rewrite app_nil_r.
    apply filter_all.
    intros k Hk. apply negb_true_iff, hasId_false, Hfresh, Hk. }
  rewrite Hkept, store_eta. f_equal.
  apply Nat.ltb_lt. rewrite length_app. simpl. lia.
Qed.

Lemma add_then_delete_restores_witness :
  deleteGeminiKey
    (fst (addGeminiKey (sampleStore true hourly) "0a1b2c3d"
            "2024-05-01T10:00:00.000Z" "NEW" (Some "spare")))
    "key_0a1b2c3d"
  = (sampleStore true hourly, true).
Proof.
  apply (add_then_delete_restores (sampleStore true hourly) "0a1b2c3d"
           "2024-05-01T10:00:00.000Z" "NEW" (Some "spare")).
  simpl. intros k [<- | [<- | [<- | [<- | []]]]]; discriminate.
Defined.

(** X11. Enabling or disabling by id answers null and changes nothing
    when no record has the id. Otherwise exactly the first record with
    that id gets the given enabled state: the records before and after
    it, its key, its id and its flag stay as they were, and the updated
    record is the answer. *)
Theorem set_enabled_updates_first_match
    (store : ApiKeysStoreShape) (wanted : string) (b : bool) :
  ((forall k, In k (getGeminiKeys store) -> id k <> wanted) ->
   setGeminiKeyEnabled store wanted b = (store, None))
  /\ (forall found,
        find (hasId wanted) (getGeminiKeys store) = Some found ->
        exists pre post,
          getGeminiKeys store = (pre ++ found :: post)%list
          /\ (forall k, In k pre -> id k <> wanted)
          /\ id found = wanted
          /\ setGeminiKeyEnabled store wanted b
             = (mkStore (pre ++ withEnabled b found :: post)
                  (getGeminiRotation store),
                Some (withEnabled b found))
          /\ key (withEnabled b found) = key found
          /\ flagged (withEnabled b found) = flagged found
          /\ enabled (withEnabled b found) = b).
Proof.
  unfold getGeminiKeys, getGeminiRotation. split.
  - intros Hnone. unfold setGeminiKeyEnabled.
    destruct (find (hasId wanted) (providers_gemini store)) as [x|] eqn:E;
      [|reflexivity].
    apply find_some in E. destruct E as [Hin Hp].
    apply hasId_true in Hp. exfalso. exact (Hnone x Hin Hp).
  - intros found Hfind.
    destruct (find_split _ _ _ Hfind) as [pre [post [Hl [Hpre [Hx Hup]]]]].
    exists pre, post. split; [exact Hl|]. split.
    { intros k Hk. apply hasId_false, Hpre, Hk. }
    split; [apply hasId_true, Hx|]. split.
    { unfold setGeminiKeyEnabled. rewrite Hfind, Hup. reflexivity. }
    repeat split.
Qed.

Lemma set_enabled_updates_first_match_witness :
  setGeminiKeyEnabled (sampleStore true hourly) "key_zz" false
  = (sampleStore true hourly, None).
Proof.
  apply (proj1 (set_enabled_updates_first_match
                  (sampleStore true hourly) "key_zz" false)).
  simpl. intros k [<- | [<- | [<- | [<- | []]]]]; discriminate.
Defined.

(** X12. Flagging or unflagging by id answers null and changes nothing
    when no record has the id. Otherwise exactly the first record with
    that id gets the given flag, and its enabled state, key and id stay
    as they were. *)
Theorem set_flagged_updates_first_match
    (store : ApiKeysStoreShape) (wanted : string) (f : bool) :
  ((forall k, In k (getGeminiKeys store) -> id k <> wanted) ->
   setGeminiKeyFlagged store wanted f = (store, None))
  /\ (forall found,
        find (hasId wanted) (getGeminiKeys store) = Some found ->
        exists pre post,
          getGeminiKeys store = (pre ++ found :: post)%list
          /\ (forall k, In k pre -> id k <> wanted)
          /\ id found = wanted
          /\ setGeminiKeyFlagged store wanted f
             = (mkStore (pre ++ withFlagged f found :: post)
                  (getGeminiRotation store),
                Some (withFlagged f found))
          /\ key (withFlagged f found) = key found
          /\ enabled (withFlagged f found) = enabled found
          /\ flagged (withFlagged f found) = Some f).
Proof.
  unfold getGeminiKeys, getGeminiRotation. split.
  - intros Hnone. unfold setGeminiKeyFlagged.
    destruct (find (hasId wanted) (providers_gemini store)) as [x|] eqn:E;
      [|reflexivity].
    apply find_some in E. destruct E as [Hin Hp].
    apply hasId_true in Hp. exfalso. exact (Hnone x Hin Hp).
  - intros found Hfind.
    destruct (find_split _ _ _ Hfind) as [pre [post [Hl [Hpre [Hx Hup]]]]].
    exists pre, post. split; [exact Hl|]. split.
    { intros k Hk. apply hasId_false, Hpre, Hk. }
    split; [apply hasId_true, Hx|]. split.
    { unfold setGeminiKeyFlagged. rewrite Hfind, Hup. reflexivity. }
    repeat split.
Qed.

Lemma set_flagged_updates_first_match_witness :
  exists pre post,
    getGeminiKeys (sampleStore true hourly)
    = (pre ++ sampleKey "C" true (Some true) :: post)%list
    /\ snd (setGeminiKeyFlagged (sampleStore true hourly) "key_C" false)
       = Some (sampleKey "C" true (Some false)).
Proof.
  destruct (proj2 (set_flagged_updates_first_match
                     (sampleStore true hourly) "key_C" false)
              (sampleKey "C" true (Some true)) eq_refl)
    as [pre [post [Hl [_ [_ [Hset _]]]]]].
  exists pre, post. split; [exact Hl|].
  rewrite Hset. reflexivity.
Defined.

(** X13. Disabling by key value answers null and changes nothing exactly
    when [findGeminiRecordByKey] finds no record. Otherwise the first
    record with that key value, the one [findGeminiRecordByKey] answers,
    is set to disabled and flagged, all other records stay as they were,
    and the updated record is the answer. *)
Theorem disable_by_value_updates_first_match
    (store : ApiKeysStoreShape) (keyValue : string) :
  (findGeminiRecordByKey store keyValue = None
   <-> snd (disableGeminiKeyByValue store keyValue) = None)
  /\ (findGeminiRecordByKey store keyValue = None ->
      fst (disableGeminiKeyByValue store keyValue) = store)
  /\ (forall found,
        findGeminiRecordByKey store keyValue = Some found ->
        exists pre post,
          getGeminiKeys store = (pre ++ found :: post)%list
          /\ (forall k, In k pre -> key k <> keyValue)
          /\ key found = keyValue
          /\ disableGeminiKeyByValue store keyValue
             = (mkStore
                  (pre ++ withFlagged true (withEnabled false found) :: post)
                  (getGeminiRotation store),
                Some (withFlagged true (withEnabled false found)))
          /\ eligible (withFlagged true (withEnabled false found)) = false).
Proof.
  unfold findGeminiRecordByKey, getGeminiKeys, getGeminiRotation.
  split; [|split].
  - destruct (find (hasKey keyValue) (providers_gemini store)) as [x|] eqn:E.
    + rewrite (disable_found store keyValue x E). split; discriminate.
    + rewrite (disable_missing store keyValue E). split; reflexivity.
  - intros E. rewrite (disable_missing store keyValue E). reflexivity.
  - intros found Hfind.
    destruct (find_split _ _ _ Hfind) as [pre [post [Hl [Hpre [Hx Hup]]]]].
    exists pre, post. split; [exact Hl|]. split.
    { intros k Hk. apply hasKey_false, Hpre, Hk. }
    split; [apply hasKey_true, Hx|]. split.
    { rewrite (disable_found store keyValue found Hfind), Hup.
      reflexivity. }
    reflexivity.
Qed.

Lemma disable_by_value_updates_first_match_witness :
  fst (disableGeminiKeyByValue (sampleStore true hourly) "unknown")
  = sampleStore true hourly.
Proof.
  apply (proj1 (proj2 (disable_by_value_updates_first_match
                         (sampleStore true hourly) "unknown"))).
  reflexivity.
Defined.

(** X14. When the stored key values are pairwise different, a key value
    that was disabled by value is never selected afterwards, at any time
    and under either rotation setting. *)
Theorem disabled_value_never_selected
    (store : ApiKeysStoreShape) (keyValue : string) (time : Z) :
  NoDup (map key (getGeminiKeys store)) ->
  getRotatingGeminiKey (fst (disableGeminiKeyByValue store keyValue)) time
  <> Returned (Some keyValue).
Proof.
  unfold getGeminiKeys. intros Hnodup Hsel.
  apply selection_from_eligible in Hsel.
  destruct Hsel as [k [Hin Hkey]].
  apply eligible_iff in Hin. destruct Hin as [Hin [Hen _]].
  destruct (find (hasKey keyValue) (providers_gemini store))
    as [found|] eqn:E.
  - rewrite (disable_found store keyValue found E) in Hin.
    destruct (find_split _ _ _ E) as [pre [post [Hl [Hpre [Hx Hup]]]]].
    cbn [fst providers_gemini] in Hin. rewrite Hup in Hin.
    apply hasKey_true in Hx.
    rewrite Hl, map_app in Hnodup. cbn [map] in Hnodup.
    apply NoDup_remove_2 in Hnodup.
    apply in_app_or in Hin. destruct Hin as [Hin | [Heq | Hin]].
    + apply Hpre, hasKey_false in Hin. contradiction.
    + subst k. discriminate Hen.
    + apply Hnodup, in_or_app. right.
      rewrite Hx, <- Hkey. apply in_map, Hin.
  - rewrite (disable_missing store keyValue E) in Hin.
    cbn [fst] in Hin.
    apply (find_none _ _ E) in Hin. apply hasKey_false in Hin.
    contradiction.
Qed.

Lemma disabled_value_never_selected_witness :
  getRotatingGeminiKey
    (fst (disableGeminiKeyByValue (sampleStore true hourly) "A"))
    1700000000000
  <> Returned (Some "A").
Proof.
  apply (disabled_value_never_selected (sampleStore true hourly) "A"
           1700000000000).
  simpl. repeat constructor; simpl; intuition discriminate.
Defined.

Lemma selection_depends_on_eligible (s1 s2 : ApiKeysStoreShape) :
  eligibleKeys s1 = eligibleKeys s2 ->
  rotation_gemini s1 = rotation_gemini s2 ->
  forall time, getRotatingGeminiKey s1 time = getRotatingGeminiKey s2 time.
Proof.
  intros He Hr time. unfold getRotatingGeminiKey.
  fold (eligibleKeys s1). fold (eligibleKeys s2). rewrite He, Hr.
  reflexivity.
Qed.

(** X15. One switch alone does not bring a key back into the rotation:
    enabling a record that is flagged, and unflagging a record that is
    disabled, both leave the eligible keys, and with them every
    selection, as they were. *)
Theorem one_switch_does_not_restore
    (store : ApiKeysStoreShape) (wanted : string) (found : ApiKeyRecord) :
  find (hasId wanted) (getGeminiKeys store) = Some found ->
  (flagged found = Some true ->
   forall b,
     eligibleKeys (fst (setGeminiKeyEnabled store wanted b))
     = eligibleKeys store
     /\ forall time,
          getRotatingGeminiKey (fst (setGeminiKeyEnabled store wanted b))
            time
          = getRotatingGeminiKey store time)
  /\ (enabled found = false ->
      forall f,
        eligibleKeys (fst (setGeminiKeyFlagged store wanted f))
        = eligibleKeys store
        /\ forall time,
             getRotatingGeminiKey (fst (setGeminiKeyFlagged store wanted f))
               time
             = getRotatingGeminiKey store time).
Proof.
  unfold getGeminiKeys. intros Hfind.
  destruct (find_split _ _ _ Hfind) as [pre [post [Hl [_ [_ Hup]]]]].
  assert (Hstore : store = mkStore (pre ++ found :: post)
                             (rotation_gemini store)).
  { rewrite <- Hl. symmetry. apply store_eta. }
  split.
  - intros Hfl b.
    assert (He : eligibleKeys (fst (setGeminiKeyEnabled store wanted b))
                 = eligibleKeys store).
    { unfold setGeminiKeyEnabled. rewrite Hfind, Hup. cbn [fst].
      rewrite Hstore at 2.
      apply eligibleKeys_middle; unfold eligible; cbn [flagged withEnabled];
        rewrite Hfl; apply andb_false_r. }
    split; [exact He|].
    apply selection_depends_on_eligible; [exact He|].
    unfold setGeminiKeyEnabled. rewrite Hfind. reflexivity.
  - intros Hen f.
    assert (He : eligibleKeys (fst (setGeminiKeyFlagged store wanted f))
                 = eligibleKeys store).
    { unfold setGeminiKeyFlagged. rewrite Hfind, Hup. cbn [fst].
      rewrite Hstore at 2.
      apply eligibleKeys_middle; unfold eligible;
        cbn [enabled withFlagged]; rewrite Hen; reflexivity. }
    split; [exact He|].
    apply selection_depends_on_eligible; [exact He|].
    unfold setGeminiKeyFlagged. rewrite Hfind. reflexivity.
Qed.

Lemma one_switch_does_not_restore_witness :
  eligibleKeys (fst (setGeminiKeyEnabled (sampleStore true hourly) "key_C"
                       true))
  = eligibleKeys (sampleStore true hourly).
Proof.
  apply (proj1 (one_switch_does_not_restore (sampleStore true hourly)
                  "key_C" (sampleKey "C" true (Some true)) eq_refl)
           eq_refl true).
Defined.

Lemma updateFirst_middle {A} (p : A -> bool) (f : A -> A)
    (pre post : list A) (x : A) :
  (forall y, In y pre -> p y = false) -> p x = true ->
  updateFirst p f (pre ++ x :: post) = (pre ++ f x :: post)%list.
Proof.
  intros Hpre Hx. induction pre as [|y pre IH]; simpl.
  - rewrite Hx. reflexivity.
  - rewrite (Hpre y (or_introl eq_refl)). f_equal. apply IH.
    intros z Hz. apply Hpre. right. exact Hz.
Qed.

Lemma set_enabled_middle (pre post : list ApiKeyRecord) (x : ApiKeyRecord)
    rot (b : bool) :
  (forall y, In y pre -> id y <> id x) ->
  fst (setGeminiKeyEnabled (mkStore (pre ++ x :: post) rot) (id x) b)
  = mkStore (pre ++ withEnabled b x :: post) rot.
Proof.
  intros Hpre. unfold setGeminiKeyEnabled.
  cbn [providers_gemini rotation_gemini].
  assert (Hp : forall y, In y pre -> hasId (id x) y = false)
    by (intros y Hy; apply hasId_false, Hpre, Hy).
  assert (Hx : hasId (id x) x = true) by (apply hasId_true; reflexivity).
  rewrite (find_middle _ pre post x Hp Hx).
  rewrite (updateFirst_middle _ _ pre post x Hp Hx). reflexivity.
Qed.

Lemma set_flagged_middle (pre post : list ApiKeyRecord) (x : ApiKeyRecord)
    rot (f : bool) :
  (forall y, In y pre -> id y <> id x) ->
  fst (setGeminiKeyFlagged (mkStore (pre ++ x :: post) rot) (id x) f)
  = mkStore (pre ++ withFlagged f x :: post) rot.
Proof.
  intros Hpre. unfold setGeminiKeyFlagged.
  cbn [providers_gemini rotation_gemini].
  assert (Hp : forall y, In y pre -> hasId (id x) y = false)
    by (intros y Hy; apply hasId_false, Hpre, Hy).
  assert (Hx : hasId (id x) x = true) by (apply hasId_true; reflexivity).
  rewrite (find_middle _ pre post x Hp Hx).
  rewrite (updateFirst_middle _ _ pre post x Hp Hx). reflexivity.
Qed.

(** X16. A key disabled by value comes back into the rotation once it is
    both enabled and unflagged by its id, provided the stored ids are
    pairwise different: after the three operations the store differs
    from the original one only in that record, which is enabled and not
    flagged, hence eligible; after enabling alone no record with that id
    is eligible. *)
Theorem disabled_key_restored_by_both
    (store : ApiKeysStoreShape) (keyValue : string) (found : ApiKeyRecord) :
  NoDup (map id (getGeminiKeys store)) ->
  findGeminiRecordByKey store keyValue = Some found ->
  let s1 := fst (disableGeminiKeyByValue store keyValue) in
  let s2 := fst (setGeminiKeyEnabled s1 (id found) true) in
  let s3 := fst (setGeminiKeyFlagged s2 (id found) false) in
  exists pre post,
    getGeminiKeys store = (pre ++ found :: post)%list
    /\ getGeminiKeys s3
       = (pre ++ withFlagged false (withEnabled true found) :: post)%list
    /\ In (withFlagged false (withEnabled true found)) (eligibleKeys s3)
    /\ (forall k, In k (eligibleKeys s2) -> id k <> id found)
    /\ getGeminiRotation s3 = getGeminiRotation store.
Proof.
  intros Hnodup Hfind s1 s2 s3.
  unfold findGeminiRecordByKey, getGeminiKeys, getGeminiRotation in *.
  destruct (find_split _ _ _ Hfind) as [pre [post [Hl [_ [_ Hup]]]]].
  assert (Hids : forall k, In k pre \/ In k post -> id k <> id found).
  { rewrite Hl, map_app in Hnodup. cbn [map] in Hnodup.
    apply NoDup_remove_2 in Hnodup.
    intros k Hk Heq. apply Hnodup. rewrite <- Heq.
    apply in_or_app. destruct Hk as [Hk | Hk];
      [left | right]; apply in_map, Hk. }
  set (x1 := withFlagged true (withEnabled false found)).
  set (x2 := withEnabled true x1).
  assert (H1 : s1 = mkStore (pre ++ x1 :: post) (rotation_gemini store)).
  { unfold s1. rewrite (disable_found store keyValue found Hfind), Hup.
    reflexivity. }
  assert (H2 : s2 = mkStore (pre ++ x2 :: post) (rotation_gemini store)).
  { unfold s2. rewrite H1.
    apply (set_enabled_middle pre post x1 (rotation_gemini store) true).
    intros y Hy. apply Hids. left. exact Hy. }
  assert (H3 : s3 = mkStore
                      (pre ++ withFlagged false (withEnabled true found)
                           :: post)
                      (rotation_gemini store)).
  { unfold s3. rewrite H2. change (id found) with (id x2).
    rewrite (set_flagged_middle pre post x2 (rotation_gemini store) false).
    - destruct found; reflexivity.
    - intros y Hy. apply Hids. left. exact Hy. }
  exists pre, post. split; [exact Hl|].
  rewrite H3, H2. cbn [providers_gemini rotation_gemini].
  split; [reflexivity|]. split; [|split; [|reflexivity]].
  - unfold eligibleKeys. cbn [providers_gemini].
    apply filter_In. split; [|reflexivity].
    apply in_or_app. right. left. reflexivity.
  - intros k Hk. unfold eligibleKeys in Hk. cbn [providers_gemini] in Hk.
    apply filter_In in Hk. destruct Hk as [Hk He].
    apply in_app_or in Hk. destruct Hk as [Hk | [<- | Hk]].
    + apply Hids. left. exact Hk.
    + unfold eligible, x2, x1 in He. cbn in He. discriminate He.
    + apply Hids. right. exact Hk.
Qed.

Lemma disabled_key_restored_by_both_witness :
  exists pre post,
    getGeminiKeys (sampleStore true hourly)
    = (pre ++ sampleKey "D" true (Some false) :: post)%list
    /\ In (sampleKey "D" true (Some false))
         (eligibleKeys
            (fst (setGeminiKeyFlagged
                    (fst (setGeminiKeyEnabled
                            (fst (disableGeminiKeyByValue
                                    (sampleStore true hourly) "D"))
                            "key_D" true))
                    "key_D" false))).
Proof.
  assert (Hnodup : NoDup (map id (getGeminiKeys (sampleStore true hourly)))).
  { simpl. repeat constructor; simpl; intuition discriminate. }
  destruct (disabled_key_restored_by_both (sampleStore true hourly) "D"
              (sampleKey "D" true (Some false)) Hnodup eq_refl)
    as [pre [post [Hl [_ [Hin _]]]]].
  exists pre, post. split; [exact Hl | exact Hin].
Defined.

(** X17. The rotation setters change only the field they set and never
    the stored keys. After rotation is switched off the first eligible
    key is selected at every time; after the strategy is set, with
    rotation enabled and a time from the epoch on, the key at index
    floor (time / interval) mod N of the new strategy's interval is
    selected. *)
Theorem rotation_setters_take_effect
    (store : ApiKeysStoreShape) (time : Z) :
  (forall b,
     getGeminiKeys (fst (setGeminiRotationEnabled store b))
     = getGeminiKeys store
     /\ getGeminiRotation (fst (setGeminiRotationEnabled store b))
        = mkRotationConfig b (strategy (getGeminiRotation store))
     /\ snd (setGeminiRotationEnabled store b)
        = getGeminiRotation (fst (setGeminiRotationEnabled store b)))
  /\ (forall s,
        getGeminiKeys (fst (setGeminiRotationStrategy store s))
        = getGeminiKeys store
        /\ getGeminiRotation (fst (setGeminiRotationStrategy store s))
           = mkRotationConfig (rotationEnabled (getGeminiRotation store)) s
        /\ snd (setGeminiRotationStrategy store s)
           = getGeminiRotation (fst (setGeminiRotationStrategy store s)))
  /\ getRotatingGeminiKey (fst (setGeminiRotationEnabled store false)) time
     = match eligibleKeys store with
       | [] => Returned None
       | k :: _ => Returned (Some (key k))
       end
  /\ (forall s,
        rotationEnabled (getGeminiRotation store) = true ->
        eligibleKeys store <> [] -> 0 <= time ->
        exists k,
          nth_error (eligibleKeys store)
            (Z.to_nat ((time / interval s)
                       mod Z.of_nat (length (eligibleKeys store))))
          = Some k
          /\ getRotatingGeminiKey (fst (setGeminiRotationStrategy store s))
               time
             = Returned (Some (key k))).
Proof.
  split; [|split; [|split]].
  - intros b. repeat split.
  - intros s. repeat split.
  - apply (rotation_disabled_first
             (fst (setGeminiRotationEnabled store false)) time).
    reflexivity.
  - intros s Hrot Hne Htime.
    apply (rotating_key_at_bucket
             (fst (setGeminiRotationStrategy store s)) time Hne Hrot Htime).
Qed.

Lemma rotation_setters_take_effect_witness :
  exists k,
    nth_error (eligibleKeys (sampleStore true hourly))
      (Z.to_nat ((180000 / interval minute) mod 2)) = Some k
    /\ getRotatingGeminiKey
         (fst (setGeminiRotationStrategy (sampleStore true hourly) minute))
         180000
       = Returned (Some (key k)).
Proof.
  apply (proj2 (proj2 (proj2 (rotation_setters_take_effect
                                (sampleStore true hourly) 180000)))
           minute eq_refl ltac:(discriminate) ltac:(lia)).
Defined.

End StoreOpsFacts.

(** ** The assembled blocks: counts, tables, heading styles *)

Section AssemblyFacts.

Lemma isEmptyTable_blocks (struct : StructuralNode) :
  length (blocksOf struct) = if isEmptyTable struct then 0%nat else 1%nat.
Proof.
  unfold blocksOf, isEmptyTable, structBlock.
  destruct (String.eqb_spec (sn_type struct) "table") as [He | Hne].
  - rewrite He. simpl. destruct (sn_rows struct) as [[|row rows]|];
      reflexivity.
  - simpl.
    repeat match goal with
           | |- context [String.eqb (sn_type struct) ?k] =>
               destruct (String.eqb (sn_type struct) k)
           end; reflexivity.
Qed.

Lemma table_block_origin (struct : StructuralNode) (t : Table) :
  In (BTable t) (blocksOf struct) ->
  sn_type struct = "table"
  /\ exists row rows,
       sn_rows struct = Some (row :: rows)
       /\ t = mkTable (map tableRow (row :: rows)).
Proof.
  unfold blocksOf, structBlock.
  destruct (String.eqb_spec (sn_type struct) "heading") as [He | _].
  { intros [H | []]. discriminate H. }
  destruct (String.eqb_spec (sn_type struct) "list") as [He | _].
  { intros [H | []]. discriminate H. }
  destruct (String.eqb_spec (sn_type struct) "table") as [He | _].
  { destruct (sn_rows struct) as [[|row rows]|]; simpl.
    - intros [].
    - intros [H | []]. injection H as <-.
      split; [exact He|]. exists row, rows. split; reflexivity.
    - intros []. }
  destruct (String.eqb_spec (sn_type struct) "image") as [He | _].
  { intros [H | []]. discriminate H. }
  destruct (String.eqb_spec (sn_type struct) "page_break") as [He | _].
  { intros [H | []]. discriminate H. }
  intros [H | []]. discriminate H.
Qed.

Lemma styled_block_origin (struct : StructuralNode) (p : Paragraph)
    (h : string) :
  In (BParagraph p) (blocksOf struct) ->
  p_heading p = Some h ->
  sn_type struct = "heading"
  /\ exists n,
       levelOrDefault struct == inject_Z n
       /\ 1 <= n <= 6
       /\ h = "Heading" ++ Js.string_of_int n.
Proof.
  unfold blocksOf, structBlock.
  destruct (String.eqb_spec (sn_type struct) "heading") as [He | _].
  { intros [H | []] Hh. injection H as <-.
    change (headingStyle (levelOrDefault struct) = Some h) in Hh.
    split; [exact He|].
    unfold headingStyle in Hh.
    destruct (Js.integerValue (levelOrDefault struct)) as [n|] eqn:En;
      [|discriminate].
    exists n. split; [apply integerValue_is, En|].
    destruct (Z_le_dec 1 n) as [H1 | H1];
      [destruct (Z_le_dec n 6) as [H6 | H6]|].
    - split; [lia|].
      rewrite headingStyle_in_range in Hh by lia.
      injection Hh as <-. reflexivity.
    - rewrite headingStyle_out_of_range in Hh by lia. discriminate.
    - rewrite headingStyle_out_of_range in Hh by lia. discriminate. }
  destruct (String.eqb_spec (sn_type struct) "list") as [He | _].
  { intros [H | []] Hh. injection H as <-. discriminate Hh. }
  destruct (String.eqb_spec (sn_type struct) "table") as [He | _].
  { destruct (sn_rows struct) as [[|row rows]|]; simpl.
    - intros [].
    - intros [H | []]. discriminate H.
    - intros []. }
  destruct (String.eqb_spec (sn_type struct) "image") as [He | _].
  { intros [H | []] Hh. injection H as <-. discriminate Hh. }
  destruct (String.eqb_spec (sn_type struct) "page_break") as [He | _].
  { intros [H | []] Hh. injection H as <-. discriminate Hh. }
  intros [H | []] Hh. injection H as <-. discriminate Hh.
Qed.

Lemma docChildren_In (result : ExtractionResult) (b : Block) :
  In b (docChildren result)
  <-> (exists struct, In struct (structure result) /\ In b (blocksOf struct))
      \/ (exists item, In item (content result)
                       /\ b = BParagraph (contentParagraph item)).
Proof.
  unfold docChildren, paragraphs.
  rewrite in_app_iff, structuredContent_flat_map, in_flat_map, map_map,
    in_map_iff.
  split; (intros [H | H]; [left; exact H | right]).
  - destruct H as [item [<- Hin]]. exists item. auto.
  - destruct H as [item [Hin ->]]. exists item. auto.
Qed.

(** X18. Whenever the assembly returns, every structural node has
    contributed exactly one block, except a table node without rows,
    which contributes none: the number of structure-derived blocks is
    the number of nodes that are not such tables, and the document never
    has more children than there are nodes and content items. *)
Theorem structure_block_count
    (w : World) (result : ExtractionResult) (blocks : list Block) :
  assemble w result = Returned blocks ->
  length blocks
  = (length (filter (fun s => negb (isEmptyTable s)) (structure result))
     + length (content result))%nat
  /\ (length blocks
      <= length (structure result) + length (content result))%nat
  /\ ((forall s, In s (structure result) -> isEmptyTable s = false) ->
      length blocks
      = (length (structure result) + length (content result))%nat).
Proof.
  intros Hasm. rewrite (assemble_returned w result blocks Hasm).
  assert (Hcount : length (structuredContent result)
    = length (filter (fun s => negb (isEmptyTable s)) (structure result))).
  { rewrite structuredContent_flat_map.
    induction (structure result) as [|s l IH]; simpl; [reflexivity|].
    rewrite length_app, IH, isEmptyTable_blocks.
    destruct (isEmptyTable s); reflexivity. }
  assert (Hlen : length (docChildren result)
                 = (length (structuredContent result)
                    + length (content result))%nat).
  { unfold docChildren, paragraphs. rewrite length_app, !length_map.
    reflexivity. }
  split; [rewrite Hlen, Hcount; reflexivity|]. split.
  - rewrite Hlen, Hcount.
    pose proof (filter_length_le (fun s => negb (isEmptyTable s))
                  (structure result)). lia.
  - intros Hall. rewrite Hlen, Hcount. f_equal. f_equal.
    clear Hcount Hlen Hasm.
    induction (structure result) as [|s l IH]; simpl; [reflexivity|].
    rewrite (Hall s (or_introl eq_refl)). simpl. f_equal.
    apply IH. intros s' Hs'. apply Hall. right. exact Hs'.
Qed.

Lemma structure_block_count_witness :
  length (docChildren sampleResult) = (3 + 2)%nat.
Proof.
  apply (proj1 (structure_block_count
                  (mkSampleWorld (Returned None) (Returned None)
                     (Threw officeError))
                  sampleResult (docChildren sampleResult) eq_refl)).
Defined.

(** X19. A table in the document always has at least one row and comes
    from a table node with non-empty rows, whose rows it mirrors; no
    other node kind and no content item produces a table. *)
Theorem tables_have_rows (result : ExtractionResult) (t : Table) :
  In (BTable t) (docChildren result) ->
  t_rows t <> []
  /\ exists struct rows,
       In struct (structure result)
       /\ sn_type struct = "table"
       /\ sn_rows struct = Some rows
       /\ length (t_rows t) = length rows
       /\ t = mkTable (map tableRow rows).
Proof.
  intros Hin. apply docChildren_In in Hin.
  destruct Hin as [[struct [Hs Hb]] | [item [_ Hb]]]; [|discriminate Hb].
  destruct (table_block_origin struct t Hb) as [Hty [row [rows [Hr ->]]]].
  split; [discriminate|].
  exists struct, (row :: rows). repeat split; try assumption.
  cbn [t_rows]. apply length_map.
Qed.

Lemma tables_have_rows_witness :
  t_rows (mkTable [ mkTableRow [ tableCell "a"; tableCell "b" ];
                    mkTableRow [ tableCell "c" ] ]) <> [].
Proof.
  apply (tables_have_rows sampleResult).
  simpl. right. left. reflexivity.
Defined.

(** X20. A paragraph of the document carries a heading style only if it
    comes from a heading node whose level, after the default, is one of
    the integers 1 to 6, and the style is then the one of that level;
    content paragraphs and all other node kinds never carry one. *)
Theorem heading_style_origin
    (result : ExtractionResult) (p : Paragraph) (h : string) :
  In (BParagraph p) (docChildren result) ->
  p_heading p = Some h ->
  exists struct n,
    In struct (structure result)
    /\ sn_type struct = "heading"
    /\ levelOrDefault struct == inject_Z n
    /\ 1 <= n <= 6
    /\ h = "Heading" ++ Js.string_of_int n.
Proof.
  intros Hin Hh. apply docChildren_In in Hin.
  destruct Hin as [[struct [Hs Hb]] | [item [_ Hb]]].
  - destruct (styled_block_origin struct p h Hb Hh)
      as [Hty [n [Hn [Hrange Hstyle]]]].
    exists struct, n. auto.
  - injection Hb as ->. discriminate Hh.
Qed.

Lemma heading_style_origin_witness :
  exists struct n,
    In struct (structure sampleResult)
    /\ sn_type struct = "heading"
    /\ levelOrDefault struct == inject_Z n
    /\ 1 <= n <= 6
    /\ "Heading3" = "Heading" ++ Js.string_of_int n.
Proof.
  apply (heading_style_origin sampleResult
           (mkParagraph (Some "Heading3")
              [ mkTextRun "A title" (Some true) None None
                  (Some (Js.Fin 18)) ])
           "Heading3").
  - left. reflexivity.
  - reflexivity.
Defined.



End AssemblyFacts.

(** ** The server action: which calls it makes and what it throws *)

Section ActionFacts.

Variable w : World.
Variable input : PdfToWordInput.

Lemma pdfToWord_no_ocr_run :
  conversionMode input = "no_ocr" ->
  run (pdfToWord w input)
  = ([Call_pdfToWordNoOcr input], pdfToWordNoOcr w input).
Proof. intros H. unfold run, pdfToWord. rewrite H. reflexivity. Qed.

Lemma pdfToWord_both_fail_run (m1 m2 : string) :
  conversionMode input <> "no_ocr" ->
  primaryFailure w (pdfUri input) = Some m1 ->
  secondaryFailure w (pdfUri input) = Some m2 ->
  run (pdfToWord w input)
  = ([ Call_pdfToWordPrompt (pdfUri input);
       Call_pdfToWordPrompt15 (pdfUri input);
       Call_pdfToWordNoOcr input ],
     match pdfToWordNoOcr w input with
     | Returned fallback => Returned fallback
     | Threw _ => Threw (ErrorObj (bothFailedMessage m1 m2))
     end).
Proof.
  intros Hmode H1 H2. unfold run, pdfToWord.
  apply String.eqb_neq in Hmode. rewrite Hmode.
  unfold bind at 1. unfold tryCatch at 1. unfold bind at 1.
  rewrite (pdfToWordFlow_both_fail w (pdfUri input) m1 m2 [] H1 H2).
  unfold tryCatch, bind, invoke, ret, throw. cbn.
  destruct (pdfToWordNoOcr w input); reflexivity.
Qed.

(** The ways a run of the action can go. *)
Lemma pdfToWord_run_cases :
  (conversionMode input = "no_ocr"
   /\ run (pdfToWord w input)
      = ([Call_pdfToWordNoOcr input], pdfToWordNoOcr w input))
  \/ (conversionMode input <> "no_ocr"
      /\ exists r,
           pdfToWordPrompt w (pdfUri input) = Returned (Some r)
           /\ run (pdfToWord w input)
              = match firstRefusedRun (assemblyRuns r) with
                | Some bad =>
                    ([Call_pdfToWordPrompt (pdfUri input)],
                     Threw (docxError w bad))
                | None =>
                    ([ Call_pdfToWordPrompt (pdfUri input);
                       Call_Packer_toBuffer (assembleDocument r) ],
                     packed w r)
                end)
  \/ (conversionMode input <> "no_ocr"
      /\ exists m1 r,
           primaryFailure w (pdfUri input) = Some m1
           /\ pdfToWordPrompt15 w (pdfUri input) = Returned (Some r)
           /\ run (pdfToWord w input)
              = match firstRefusedRun (assemblyRuns r) with
                | Some bad =>
                    ([ Call_pdfToWordPrompt (pdfUri input);
                       Call_pdfToWordPrompt15 (pdfUri input) ],
                     Threw (docxError w bad))
                | None =>
                    ([ Call_pdfToWordPrompt (pdfUri input);
                       Call_pdfToWordPrompt15 (pdfUri input);
                       Call_Packer_toBuffer (assembleDocument r) ],
                     packed w r)
                end)
  \/ (conversionMode input <> "no_ocr"
      /\ exists m1 m2,
           primaryFailure w (pdfUri input) = Some m1
           /\ secondaryFailure w (pdfUri input) = Some m2
           /\ run (pdfToWord w input)
              = ([ Call_pdfToWordPrompt (pdfUri input);
                   Call_pdfToWordPrompt15 (pdfUri input);
                   Call_pdfToWordNoOcr input ],
                 match pdfToWordNoOcr w input with
                 | Returned fallback => Returned fallback
                 | Threw _ => Threw (ErrorObj (bothFailedMessage m1 m2))
                 end)).
Proof.
  destruct (String.eqb_spec (conversionMode input) "no_ocr") as [Hm | Hm].
  { left. split; [exact Hm | apply pdfToWord_no_ocr_run, Hm]. }
  right.
  destruct (pdfToWordFlow_cases w (pdfUri input))
    as [[r H] | [[m1 [r [H1 H2]]] | [m1 [m2 [H1 H2]]]]].
  - left. split; [exact Hm|]. exists r. split; [exact H|].
    rewrite (pdfToWord_after_extraction w input _ r Hm
               (pdfToWordFlow_primary w (pdfUri input) r [] H)).
    destruct (firstRefusedRun (assemblyRuns r)); reflexivity.
  - right. left. split; [exact Hm|]. exists m1, r.
    split; [exact H1|]. split; [exact H2|].
    rewrite (pdfToWord_after_extraction w input _ r Hm
               (pdfToWordFlow_secondary w (pdfUri input) m1 r [] H1 H2)).
    destruct (firstRefusedRun (assemblyRuns r)); reflexivity.
  - right. right. split; [exact Hm|]. exists m1, m2.
    split; [exact H1|]. split; [exact H2|].
    apply pdfToWord_both_fail_run; assumption.
Qed.

End ActionFacts.

(** X22. One conversion makes at most three outside calls, in one of
    six sequences: the converter alone (mode [no_ocr]); the primary
    model and the packer; both models and the packer; both models and
    the converter; and, when a run constructor refuses its options
    during the assembly, the primary model alone or both models alone.
    A model is called first unless the mode is [no_ocr], and the packer
    and the converter are never both called. *)
Theorem action_call_sequences (w : World) (input : PdfToWordInput) :
  let log := fst (run (pdfToWord w input)) in
  let uri := pdfUri input in
  ((conversionMode input = "no_ocr" /\ log = [Call_pdfToWordNoOcr input])
   \/ (conversionMode input <> "no_ocr"
       /\ exists r,
            log = [ Call_pdfToWordPrompt uri;
                    Call_Packer_toBuffer (assembleDocument r) ])
   \/ (conversionMode input <> "no_ocr"
       /\ exists r,
            log = [ Call_pdfToWordPrompt uri; Call_pdfToWordPrompt15 uri;
                    Call_Packer_toBuffer (assembleDocument r) ])
   \/ (conversionMode input <> "no_ocr"
       /\ log = [ Call_pdfToWordPrompt uri; Call_pdfToWordPrompt15 uri;
                  Call_pdfToWordNoOcr input ])
   \/ (conversionMode input <> "no_ocr"
       /\ (exists r bad,
             firstRefusedRun (assemblyRuns r) = Some bad
             /\ snd (run (pdfToWord w input)) = Threw (docxError w bad))
       /\ (log = [ Call_pdfToWordPrompt uri ]
           \/ log = [ Call_pdfToWordPrompt uri;
                      Call_pdfToWordPrompt15 uri ])))
  /\ (length log <= 3)%nat
  /\ ~ (In (Call_pdfToWordNoOcr input) log
        /\ exists doc, In (Call_Packer_toBuffer doc) log).
Proof.
  intros log uri. unfold log, uri.
  destruct (pdfToWord_run_cases w input)
    as [[Hm Hr] | [[Hm [r [_ Hr]]] | [[Hm [m1 [r [_ [_ Hr]]]]]
                                     | [Hm [m1 [m2 [_ [_ Hr]]]]]]]];
    rewrite Hr;
    try (destruct (firstRefusedRun (assemblyRuns r)) as [bad|] eqn:Ebad);
    cbn [fst snd]; (split; [|split; [simpl; lia|]]).
  - left. auto.
  - intros [_ [doc [H | []]]]. discriminate H.
  - right. right. right. right. split; [exact Hm|]. split.
    + exists r, bad. auto.
    + left. reflexivity.
  - intros [[H | []] _]. discriminate H.
  - right. left. split; [exact Hm|]. exists r. reflexivity.
  - intros [[H | [H | []]] _]; discriminate H.
  - right. right. right. right. split; [exact Hm|]. split.
    + exists r, bad. auto.
    + right. reflexivity.
  - intros [[H | [H | []]] _]; discriminate H.
  - right. right. left. split; [exact Hm|]. exists r. reflexivity.
  - intros [[H | [H | [H | []]]] _]; discriminate H.
  - right. right. right. left. auto.
  - intros [_ [doc [H | [H | [H | []]]]]]; discriminate H.
Qed.

Lemma action_call_sequences_witness :
  (length (fst (run (pdfToWord
                       (mkSampleWorld (Threw quotaError) (Returned None)
                          (Threw officeError)) ocrInput))) <= 3)%nat.
Proof.
  apply (proj1 (proj2 (action_call_sequences
                         (mkSampleWorld (Threw quotaError) (Returned None)
                            (Threw officeError)) ocrInput))).
Defined.



(** X24. A failure of the packer is not recovered: when the packer is
    called and throws, the action throws the packer's error and the
    fallback converter is not called; the packed document is then the
    one assembled from an extraction. In particular, when the
    extraction returned a result from which the document was assembled
    and the packer throws on it, the action throws the packer's error
    without calling the fallback converter. *)
Theorem packer_failure_not_recovered
    (w : World) (input : PdfToWordInput) (e : thrown) :
  (forall doc,
     In (Call_Packer_toBuffer doc) (fst (run (pdfToWord w input))) ->
     Packer_toBuffer w doc = Threw e ->
     snd (run (pdfToWord w input)) = Threw e
     /\ ~ In (Call_pdfToWordNoOcr input) (fst (run (pdfToWord w input)))
     /\ exists r, assemble w r = Returned (docChildren r)
                  /\ doc = assembleDocument r)
  /\ (forall r log blocks,
        conversionMode input <> "no_ocr" ->
        pdfToWordFlow w (pdfUri input) [] = (log, Returned r) ->
        assemble w r = Returned blocks ->
        Packer_toBuffer w (assembleDocument r) = Threw e ->
        snd (run (pdfToWord w input)) = Threw e
        /\ ~ In (Call_pdfToWordNoOcr input)
              (fst (run (pdfToWord w input)))).
Proof.
  assert (Hreached : forall doc,
     In (Call_Packer_toBuffer doc) (fst (run (pdfToWord w input))) ->
     Packer_toBuffer w doc = Threw e ->
     snd (run (pdfToWord w input)) = Threw e
     /\ ~ In (Call_pdfToWordNoOcr input) (fst (run (pdfToWord w input)))
     /\ exists r, assemble w r = Returned (docChildren r)
                  /\ doc = assembleDocument r);
  [ intros doc
  | split; [exact Hreached|];
    intros r log blocks Hmode Hflow Hasm Hpack;
    assert (Hin : In (Call_Packer_toBuffer (assembleDocument r))
                    (fst (run (pdfToWord w input))));
    [ rewrite (pdfToWord_after_extraction w input log r Hmode Hflow);
      rewrite assemble_first in Hasm;
      destruct (firstRefusedRun (assemblyRuns r)); [discriminate Hasm|];
      cbn [fst]; apply in_or_app; right; left; reflexivity
    | destruct (Hreached _ Hin Hpack) as [Hthrow [Hno _]];
      split; assumption ] ].
  assert (Hasm : forall r, firstRefusedRun (assemblyRuns r) = None ->
                   assemble w r = Returned (docChildren r)).
  { intros r Hr. rewrite assemble_first, Hr. reflexivity. }
  destruct (pdfToWord_run_cases w input)
    as [[Hm Hr] | [[Hm [r [_ Hr]]] | [[Hm [m1 [r [_ [_ Hr]]]]]
                                     | [Hm [m1 [m2 [_ [_ Hr]]]]]]]];
    rewrite Hr;
    try (destruct (firstRefusedRun (assemblyRuns r)) as [bad|] eqn:Ebad);
    cbn [fst snd]; intros Hin Hpack.
  - destruct Hin as [H | []]. discriminate H.
  - destruct Hin as [H | []]. discriminate H.
  - destruct Hin as [H | [H | []]]; [discriminate H|].
    injection H as <-. unfold packed. rewrite Hpack.
    split; [reflexivity|]. split.
    + intros [H | [H | []]]; discriminate H.
    + exists r. split; [apply Hasm, Ebad | reflexivity].
  - destruct Hin as [H | [H | []]]; discriminate H.
  - destruct Hin as [H | [H | [H | []]]]; try discriminate H.
    injection H as <-. unfold packed. rewrite Hpack.
    split; [reflexivity|]. split.
    + intros [H | [H | [H | []]]]; discriminate H.
    + exists r. split; [apply Hasm, Ebad | reflexivity].
  - destruct Hin as [H | [H | [H | []]]]; discriminate H.
Qed.

Lemma packer_failure_not_recovered_witness :
  snd (run (pdfToWord
              (mkWorld (fun _ => Returned (Some sampleResult))
                 (fun _ => Returned None) (fun _ => Returned sampleOutput)
                 (fun _ => Threw quotaError) (fun _ => "")
                 (fun _ => badRunError))
              ocrInput))
  = Threw quotaError.
Proof.
  refine (proj1 (proj1 (packer_failure_not_recovered
    (mkWorld (fun _ => Returned (Some sampleResult))
       (fun _ => Returned None) (fun _ => Returned sampleOutput)
       (fun _ => Threw quotaError) (fun _ => "") (fun _ => badRunError))
    ocrInput quotaError) (assembleDocument sampleResult) _ eq_refl)).
  simpl. right. left. reflexivity.
Defined.
